(** * Crontab discovery and aggregation (crontab/crontabs.py)

    A shallow embedding of the classes [UserSpool], [SystemTab], [AnaCronTab]
    and [CronTabs] of crontab/crontabs.py, together with the properties of the
    discovery pass and of the merged view.

    Python objects that are shared and mutated (jobs, tabs) live in a store
    and are referred to by their index; every method is a computation in a
    state-and-exception monad over that store. *)

From Stdlib Require Import String Ascii Bool Arith Lia.
From stdpp Require Import base list.

Local Open Scope string_scope.
Local Open Scope list_scope.

(** ** Python values and strings *)

(** The values that occur as a [user]: [None], [True]/[False], or a name. *)
Inductive PyVal :=
| PNone
| PBool (b : bool)
| PStr (s : string).

(** Python's truth value. *)
Definition truthy (v : PyVal) : bool :=
  match v with
  | PNone => false
  | PBool b => b
  | PStr s => negb (String.eqb s "")
  end.

(** [a or b]. *)
Definition py_or (a b : PyVal) : PyVal := if truthy a then a else b.

(** [v is None]. *)
Definition is_None (v : PyVal) : bool :=
  match v with PNone => true | _ => false end.

(** [needle in hay] on strings. *)
Fixpoint contains (needle hay : string) : bool :=
  String.prefix needle hay ||
  match hay with
  | EmptyString => false
  | String _ hay' => contains needle hay'
  end.

(** [s.endswith('/')]. *)
Fixpoint endswith_sep (s : string) : bool :=
  match s with
  | EmptyString => false
  | String c EmptyString => Ascii.eqb c "/"
  | String _ s' => endswith_sep s'
  end.

(** [os.path.join(a, b)] of posixpath, for two components. *)
Definition os_path_join (a b : string) : string :=
  if String.prefix "/" b then b
  else if String.eqb a "" || endswith_sep a then a ++ b
  else a ++ "/" ++ b.

(** [s.split(c)] for a one-character separator. *)
Fixpoint split (c : ascii) (s : string) : list string :=
  match s with
  | EmptyString => [EmptyString]
  | String a s' =>
      if Ascii.eqb a c then EmptyString :: split c s'
      else match split c s' with
           | h :: t => String a h :: t
           | [] => [String a EmptyString]
           end
  end.

(** [loc.split('.')[-1]]. *)
Definition last_segment (loc : string) : string :=
  List.last (split "." loc) EmptyString.

(** ** The store: jobs and tabs *)

(** The five schedule fields of a job; their syntax is the crontab engine's
    business and is opaque here. *)
Record Schedule := mkSchedule {
  minute : string; hour : string; dom : string; month : string; dow : string
}.

Definition every_minute : Schedule := mkSchedule "*" "*" "*" "*" "*".

(** A job object.  [cron] is the tab the job was created in. *)
Record Job := mkJob {
  command : string;
  comment : string;
  user : PyVal;
  slices : Schedule;
  cron : nat
}.

(** A tab object.  [tab_user] is the [user] argument it was built with,
    [crons] its jobs in order (references into the job store). *)
Record CronTab := mkCronTab {
  tab_user : PyVal;
  tabfile : option string;
  crons : list nat
}.

(** One parsed line of a crontab, before it becomes a job object. *)
Record JobLine := mkJobLine {
  l_command : string;
  l_comment : string;
  l_user : PyVal;
  l_slices : Schedule
}.

Inductive exn :=
| OSError       (* os.listdir, os.stat *)
| KeyError      (* pwd.getpwuid *)
| IndexError    (* item[0] on an empty string *)
| EngineError.  (* the crontab engine could not open or parse a tab *)

(** Everything outside crontabs.py that the code consults: the file system,
    the account database and the crontab engine (class [CronTab] of
    crontab/crontab.py, which is not part of the sources at hand). *)
Record Env := mkEnv {
  os_listdir : string -> option (list string);   (* None: OSError *)
  os_isdir : string -> bool;
  os_isfile : string -> bool;
  os_stat_uid : string -> option nat;            (* None: OSError *)
  getpwuid : nat -> option string;               (* None: KeyError *)
  access_X_OK : string -> bool;
  current_user : string;
  crontab_of_user : string -> exn + list JobLine;
  crontab_of_file : string -> exn + list JobLine;
  (* the truth value Python gives a tab in [if tab := ...] *)
  tab_bool : CronTab -> bool
}.

(** The state of the process as far as one [CronTabs] instance sees it:
    the two stores, the instance's own list content and its [_all]. *)
Record State := mkState {
  jobs : list Job;
  tabs : list CronTab;
  self_tabs : list nat;
  c_all : option nat
}.

Definition empty_state : State := mkState [] [] [] None.

(** ** State and exception monad *)

Inductive Res (A : Type) :=
| Ok (a : A) (s : State)
| Raise (e : exn) (s : State).
Arguments Ok {A} a s.
Arguments Raise {A} e s.

Definition M (A : Type) : Type := State -> Res A.

Definition ret {A} (a : A) : M A := fun s => Ok a s.
Definition raise {A} (e : exn) : M A := fun s => Raise e s.
Definition bind {A B} (c : M A) (k : A -> M B) : M B :=
  fun s => match c s with
           | Ok a s' => k a s'
           | Raise e s' => Raise e s'
           end.
Definition get : M State := fun s => Ok s s.
Definition modify (f : State -> State) : M unit := fun s => Ok tt (f s).

Notation "'let*' x := c 'in' k" := (bind c (fun x => k))
  (at level 10, x name, c at level 200, k at level 200,
   format "'[v' 'let*'  x  :=  c  'in' '/' k ']'").

(** The state a computation leaves behind, whether it returned or raised. *)
Definition final {A} (r : Res A) : State :=
  match r with Ok _ s => s | Raise _ s => s end.

(** [for x in xs: body x]. *)
Fixpoint for_each {A} (xs : list A) (body : A -> M unit) : M unit :=
  match xs with
  | [] => ret tt
  | x :: rest => let* _ := body x in for_each rest body
  end.

(** ** The crontab engine (class [CronTab] and its jobs)

    crontab/crontab.py is not among the sources; the operations below are the
    ones crontabs.py calls on it. *)

Definition with_jobs (f : list Job -> list Job) (s : State) : State :=
  mkState (f (jobs s)) (tabs s) (self_tabs s) (c_all s).

Definition with_tabs (f : list CronTab -> list CronTab) (s : State) : State :=
  mkState (jobs s) (f (tabs s)) (self_tabs s) (c_all s).

Definition set_user (u : PyVal) (j : Job) : Job :=
  mkJob (command j) (comment j) u (slices j) (cron j).

Definition set_crons (f : list nat -> list nat) (t : CronTab) : CronTab :=
  mkCronTab (tab_user t) (tabfile t) (f (crons t)).

Definition line_job (owner : nat) (l : JobLine) : Job :=
  mkJob (l_command l) (l_comment l) (l_user l) (l_slices l) owner.

(** Modelled from the spec: the name whose crontab [CronTab(user=...)] opens;
    [user=True] stands for the invoking user (section 4.1, "the *current*
    invoking user's personal crontab"). *)
Definition user_name (w : Env) (u : PyVal) : string :=
  match u with
  | PStr n => n
  | _ => current_user w
  end.

(** Modelled from the spec: what a new tab reads (section 6, [openForFile]
    and [openForUser], both of which can fail): the file when one is given,
    else the user's crontab when a user is given, else nothing, which is the
    "fresh ownerless TabHandle" of sections 4.3 and 4.4. *)
Definition read (w : Env) (u : PyVal) (file : option string)
  : exn + list JobLine :=
  match file with
  | Some p => crontab_of_file w p
  | None => if truthy u then crontab_of_user w (user_name w u) else inr []
  end.

(** Modelled from the spec: the constructor [CronTab(user=u, tabfile=file)].
    It allocates the tab and one job object per line read, in file order
    (section 6, [TabHandle.jobs() -> sequence of Job in file order]). *)
Definition new_CronTab (w : Env) (u : PyVal) (file : option string) : M nat :=
  fun s =>
    match read w u file with
    | inl e => Raise e s
    | inr lines =>
        let t := length (tabs s) in
        Ok t (mkState (jobs s ++ List.map (line_job t) lines)
                      (tabs s ++ [mkCronTab u file
                                    (seq (length (jobs s)) (length lines))])
                      (self_tabs s) (c_all s))
    end.

(** Modelled from the spec: the property [tab.user], the tab's declared user
    (section 4.4); a tab opened with [user=True] declares the invoking user. *)
Definition CronTab_user (w : Env) (t : CronTab) : PyVal :=
  match tab_user t with
  | PBool true => PStr (current_user w)
  | u => u
  end.

(** Modelled from the spec: [tab.append(job)], the job is appended to the
    tab's sequence; the job object itself is shared, not copied. *)
Definition append (t j : nat) : M unit :=
  modify (with_tabs (alter (set_crons (fun js => js ++ [j])) t)).

(** Modelled from the spec: [tab.new(command=c, user=u)] (section 6,
    [TabHandle.newJob(command, user?, comment?) -> Job] appended to the
    handle): a new job object owned by the tab, with no comment yet. *)
Definition new (t : nat) (c : string) (u : PyVal) : M nat :=
  fun s =>
    let j := length (jobs s) in
    Ok j (with_tabs (alter (set_crons (fun js => js ++ [j])) t)
            (with_jobs (fun js => js ++ [mkJob c "" u every_minute t]) s)).

(** Modelled from the spec: [job.set_comment(text)]. *)
Definition set_comment (j : nat) (text : string) : M unit :=
  modify (with_jobs (alter (fun job =>
    mkJob (command job) text (user job) (slices job) (cron job)) j)).

(** Modelled from the spec: [job.setall(other)], "copy every schedule field
    verbatim" (section 4.3, step 3). *)
Definition setall (j other : nat) : M unit :=
  fun s =>
    match jobs s !! other with
    | Some o =>
        Ok tt (with_jobs (alter (fun job =>
          mkJob (command job) (comment job) (user job) (slices o) (cron job)) j) s)
    | None => Ok tt s
    end.

(** Modelled from the spec: [job.delete()], the job is removed from the tab
    it lives in (section 4.3, step 4). *)
Definition delete (j : nat) : M unit :=
  fun s =>
    match jobs s !! j with
    | Some job =>
        Ok tt (with_tabs (alter (set_crons (filter (λ i, i ≠ j))) (cron job)) s)
    | None => Ok tt s
    end.

Definition job_matches (s : State) (text : string) (j : nat) : bool :=
  match jobs s !! j with
  | Some job => contains text (command job)
  | None => false
  end.

(** Modelled from the spec: [list(tab.find_command(text))], the jobs of one
    tab whose command contains [text], in the tab's order (section 6,
    [findJobsByCommandSubstring]). *)
Definition find_command (s : State) (t : nat) (text : string) : list nat :=
  match tabs s !! t with
  | Some tab => List.filter (job_matches s text) (crons tab)
  | None => []
  end.

(** [job.user] *)
Definition job_user (s : State) (j : nat) : PyVal :=
  match jobs s !! j with
  | Some job => user job
  | None => PNone
  end.

(** The jobs of a tab, [list(tab)]. *)
Definition tab_crons (s : State) (t : nat) : list nat :=
  match tabs s !! t with
  | Some tab => crons tab
  | None => []
  end.

(** [item[0]] *)
Definition first_char (item : string) : M ascii :=
  match item with
  | EmptyString => raise IndexError
  | String c _ => ret c
  end.

(** [if tab: self.append(tab)] on the list under construction. *)
Definition append_if_true (w : Env) (self : list nat) (tab : nat) : M (list nat) :=
  fun s =>
    match tabs s !! tab with
    | Some t => Ok (if tab_bool w t then self ++ [tab] else self) s
    | None => Ok self s
    end.

(** ** class UserSpool *)

Module UserSpool.

Definition listdir (w : Env) (loc : string) : list string :=
  match os_listdir w loc with
  | Some names => names
  | None => []          (* except OSError: return [] *)
  end.

Definition get_owner (w : Env) (path : string) : M (option string) :=
  match os_stat_uid w path with
  | None => raise OSError
  | Some uid => ret (getpwuid w uid)   (* except KeyError: return *)
  end.

Definition same_owner (username : string) (owner : option string) : bool :=
  match owner with
  | Some o => String.eqb username o
  | None => false
  end.

Definition generate (w : Env) (loc username : string) : M nat :=
  let path := os_path_join loc username in
  let* owner := get_owner w path in
  if negb (same_owner username owner)
  then new_CronTab w PNone (Some path)
  else new_CronTab w (PStr username) None.

Fixpoint entries (w : Env) (loc : string) (names : list string)
         (self : list nat) : M (list nat) :=
  match names with
  | [] => ret self
  | username :: rest =>
      let* tab := generate w loc username in
      let* self' := append_if_true w self tab in
      entries w loc rest self'
  end.

Definition init (w : Env) (loc : string) : M (list nat) :=
  let* self := entries w loc (listdir w loc) [] in
  match self with
  | [] =>
      let* tab := new_CronTab w (PBool true) None in
      append_if_true w self tab
  | _ => ret self
  end.

End UserSpool.

(** ** class SystemTab *)

Module SystemTab.

Fixpoint entries (w : Env) (loc : string) (items : list string)
         (self : list nat) : M (list nat) :=
  match items with
  | [] => ret self
  | item :: rest =>
      let* c := first_char item in
      if Ascii.eqb c "." then entries w loc rest self
      else
        let* tab := new_CronTab w (PBool false) (Some (os_path_join loc item)) in
        entries w loc rest (self ++ [tab])
  end.

Definition init (w : Env) (loc : string) : M (list nat) :=
  if os_isdir w loc then
    match os_listdir w loc with
    | None => raise OSError
    | Some items => entries w loc items []
    end
  else if os_isfile w loc then
    let* tab := new_CronTab w (PBool false) (Some loc) in
    ret [tab]
  else ret [].

End SystemTab.

(** ** class CronTabs: the merged view

    [all] comes before [AnaCronTab] here because the latter reads it through
    its [tabs] argument. *)

Module CronTabs.

Definition set_all (v : option nat) (s : State) : State :=
  mkState (jobs s) (tabs s) (self_tabs s) v.

(** [tab.user or 'unknown'] *)
Definition default_user (w : Env) (s : State) (tab : nat) : PyVal :=
  match tabs s !! tab with
  | Some t => py_or (CronTab_user w t) (PStr "unknown")
  | None => PStr "unknown"
  end.

(** The body of the inner loop of [all]. *)
Definition visit (w : Env) (v tab job : nat) : M unit :=
  let* s := get in
  let* _ := (if is_None (job_user s job)
             then modify (with_jobs (alter (set_user (default_user w s tab)) job))
             else ret tt) in
  append v job.

Definition all (w : Env) : M nat :=
  let* s := get in
  match c_all s with
  | Some v => ret v
  | None =>
      let* v := new_CronTab w (PBool false) None in
      let* _ := modify (set_all (Some v)) in
      let* _ := for_each (self_tabs s) (fun tab =>
                  let* s1 := get in
                  for_each (tab_crons s1 tab) (visit w v tab)) in
      ret v
  end.

End CronTabs.

(** ** class AnaCronTab *)

Module AnaCronTab.

(** The test of [add] that makes it return without a job. *)
Definition skipped (w : Env) (loc item : string) : M bool :=
  if String.eqb item "0anacron" then ret true
  else
    let* c := first_char item in
    ret (Ascii.eqb c "." || negb (access_X_OK w (os_path_join loc item))).

(** [add(loc, item, anajob)], with [self0] the tab [self[0]]. *)
Definition add (w : Env) (self0 : nat) (loc item : string) (anajob : nat)
  : M unit :=
  let path := os_path_join loc item in
  let* skip := skipped w loc item in
  if skip then ret tt
  else
    let* s := get in
    let* job := new self0 path (job_user s anajob) in
    let* _ := set_comment job ("Anacron " ++ last_segment loc) in
    setall job anajob.

Definition init (w : Env) (loc : string) : M (list nat) :=
  let* s := get in
  match self_tabs s with
  | [] => ret []
  | _ :: _ =>
      if os_isdir w loc then
        let* self0 := new_CronTab w (PBool false) None in
        let* v := CronTabs.all w in
        let* s1 := get in
        match find_command s1 v loc with
        | [] => ret [self0]
        | anajob :: _ =>
            match os_listdir w loc with
            | None => raise OSError
            | Some items =>
                let* _ := for_each items (fun item =>
                            add w self0 loc item anajob) in
                let* _ := delete anajob in
                ret [self0]
            end
        end
      else ret []
  end.

End AnaCronTab.

(** ** KNOWN_LOCATIONS and the rest of class CronTabs *)

Inductive TabSource := cUserSpool | cSystemTab | cAnaCronTab.

Definition KNOWN_LOCATIONS : list (TabSource * string) :=
  [ (cUserSpool, "/var/spool/cron/crontabs/");
    (cSystemTab, "/etc/crontab");
    (cSystemTab, "/etc/cron.d/");
    (cAnaCronTab, "/etc/cron.hourly");
    (cAnaCronTab, "/etc/cron.daily");
    (cAnaCronTab, "/etc/cron.weekly");
    (cAnaCronTab, "/etc/cron.monthly") ].

(** [cls(loc, tabs=self)] *)
Definition construct (w : Env) (cls : TabSource) (loc : string) : M (list nat) :=
  match cls with
  | cUserSpool => UserSpool.init w loc
  | cSystemTab => SystemTab.init w loc
  | cAnaCronTab => AnaCronTab.init w loc
  end.

(** [self.append(tab); self._all = None] *)
Definition own (tab : nat) (s : State) : State :=
  mkState (jobs s) (tabs s) (self_tabs s ++ [tab]) None.

Definition CronTabs_add (w : Env) (cls : TabSource) (loc : string) : M unit :=
  let* produced := construct w cls loc in
  for_each produced (fun tab => modify (own tab)).

(** [CronTabs.__init__] *)
Definition CronTabs_init (w : Env) : M unit :=
  let* s := get in
  match self_tabs s with
  | [] => for_each KNOWN_LOCATIONS (fun '(cls, loc) => CronTabs_add w cls loc)
  | _ :: _ => ret tt
  end.

(** ** The singleton

    A process holds the two stores, every [CronTabs] object created so far
    (its list content and its [_all]) and the class attribute [_self]. *)

Record Instance := mkInstance {
  i_tabs : list nat;
  i_all : option nat
}.

Record Process := mkProcess {
  p_jobs : list Job;
  p_tabs : list CronTab;
  instances : list Instance;
  cls_self : option nat
}.

Definition fresh_process : Process := mkProcess [] [] [] None.

(** [not cls._self]: the attribute is [None], or it is an empty list. *)
Definition not_self (p : Process) : bool :=
  match cls_self p with
  | None => true
  | Some i =>
      match instances p !! i with
      | Some inst => match i_tabs inst with [] => true | _ :: _ => false end
      | None => true
      end
  end.

(** [CronTabs.__new__] *)
Definition new_CronTabs (p : Process) : nat * Process :=
  if not_self p then
    let i := length (instances p) in
    (i, mkProcess (p_jobs p) (p_tabs p)
          (instances p ++ [mkInstance [] None]) (Some i))
  else
    match cls_self p with
    | Some i => (i, p)
    | None => (0, p)
    end.

Definition enter (p : Process) (i : nat) : State :=
  match instances p !! i with
  | Some inst => mkState (p_jobs p) (p_tabs p) (i_tabs inst) (i_all inst)
  | None => mkState (p_jobs p) (p_tabs p) [] None
  end.

Definition leave (p : Process) (i : nat) (s : State) : Process :=
  mkProcess (jobs s) (tabs s)
    (<[i := mkInstance (self_tabs s) (c_all s)]> (instances p)) (cls_self p).

(** The call [CronTabs()]: [__new__], then [__init__] on what it returned.
    The result is the object, or the exception that escaped. *)
Definition CronTabs_call (w : Env) (p : Process) : (exn + nat) * Process :=
  let '(i, p1) := new_CronTabs p in
  match CronTabs_init w (enter p1 i) with
  | Ok _ s => (inr i, leave p1 i s)
  | Raise e s => (inl e, leave p1 i s)
  end.

(** * Vocabulary of the properties *)

(** ** The merged view, as a function of the state it is built from *)

(** [if job.user is None: job.user = d] on a job record. *)
Definition fix_user (d : PyVal) (job : Job) : Job :=
  if is_None (user job) then set_user d job else job.

(** The job store after the inner loop body ran for job [j] of tab [t]. *)
Definition assign (w : Env) (s0 : State) (t : nat) (js : list Job) (j : nat)
  : list Job :=
  alter (fix_user (CronTabs.default_user w s0 t)) j js.

(** The job store after the inner loop ran over tab [t]. *)
Definition assign_tab (w : Env) (s0 : State) (js : list Job) (t : nat)
  : list Job :=
  fold_left (assign w s0 t) (tab_crons s0 t) js.

(** The job store after a rebuild of the merged view. *)
Definition assigned (w : Env) (s : State) : list Job :=
  fold_left (assign_tab w s) (self_tabs s) (jobs s).

(** The jobs of every owned tab: tabs in insertion order, each tab's jobs in
    its own order. *)
Definition merged_jobs (s : State) : list nat :=
  concat (List.map (tab_crons s) (self_tabs s)).

(** The view object, a [CronTab(user=False)], holding [js]. *)
Definition fresh_view (js : list nat) : CronTab := mkCronTab (PBool false) None js.

(** The state after a rebuild of the merged view. *)
Definition rebuilt (w : Env) (s : State) : State :=
  mkState (assigned w s) (tabs s ++ [fresh_view (merged_jobs s)])
          (self_tabs s) (Some (length (tabs s))).

(** The state in the middle of a rebuild of the view of [s0]: the view holds
    [vc] so far. *)
Definition mid (s0 : State) (js : list Job) (vc : list nat) : State :=
  mkState js (tabs s0 ++ [fresh_view vc]) (self_tabs s0)
          (Some (length (tabs s0))).

(** The first owned tab, in insertion order, that holds job [i]. *)
Fixpoint owner_in (s : State) (ts : list nat) (i : nat) : option nat :=
  match ts with
  | [] => None
  | t :: ts' =>
      if bool_decide (i ∈ tab_crons s t) then Some t else owner_in s ts' i
  end.

(** What a rebuild does to the record of a job whose first owner is [o]. *)
Definition fix_by (w : Env) (s : State) (o : option nat) (a : Job) : Job :=
  match o with
  | Some t => fix_user (CronTabs.default_user w s t) a
  | None => a
  end.

(** The jobs the merged view shows: the cached view when there is one, else
    the jobs of the owned tabs. *)
Definition combined (s : State) : list nat :=
  match c_all s with
  | Some v => tab_crons s v
  | None => merged_jobs s
  end.

(** The state a read of [all] leaves. *)
Definition after_all (w : Env) (s : State) : State :=
  match c_all s with
  | Some _ => s
  | None => rebuilt w s
  end.

(** The view a read of [all] returns. *)
Definition view_of (s : State) : nat :=
  match c_all s with
  | Some v => v
  | None => length (tabs s)
  end.

(** ** What an operation keeps of the state it starts from *)

(** A job record is kept up to the defaulting of a null user. *)
Definition defaulted (a b : Job) : Prop :=
  b = a ∨ (user a = PNone ∧ ∃ d, d ≠ PNone ∧ b = set_user d a).

(** Every job of [js] is still there in [js'], kept in that sense. *)
Definition jobs_kept (js js' : list Job) : Prop :=
  ∀ j a, js !! j = Some a → ∃ b, js' !! j = Some b ∧ defaulted a b.

(** A tab record is kept up to the deletion of jobs. *)
Definition tab_kept (a b : CronTab) : Prop :=
  tab_user b = tab_user a ∧ tabfile b = tabfile a ∧
  ∀ j, j ∈ crons b → j ∈ crons a.

(** Every tab of [ts] is still there in [ts'], kept in that sense. *)
Definition tabs_kept (ts ts' : list CronTab) : Prop :=
  ∀ t a, ts !! t = Some a → ∃ b, ts' !! t = Some b ∧ tab_kept a b.

(** Tab records are kept except, possibly, the one at [x]. *)
Definition tabs_kept_but (x : nat) (ts ts' : list CronTab) : Prop :=
  length ts ≤ length ts' ∧
  ∀ t a, t ≠ x → ts !! t = Some a → ∃ b, ts' !! t = Some b ∧ tab_kept a b.

(** [frame s s']: from [s] to [s'] every object of [s] is kept, and the
    aggregator's own list is the same. *)
Record frame (s s' : State) : Prop := mkFrame {
  fr_jobs : jobs_kept (jobs s) (jobs s');
  fr_tabs : tabs_kept (tabs s) (tabs s');
  fr_self : self_tabs s' = self_tabs s
}.

(** [allocs s s']: [s'] is [s] with new objects allocated, nothing else. *)
Definition allocs (s s' : State) : Prop :=
  ∃ nj nt, jobs s' = jobs s ++ nj ∧ tabs s' = tabs s ++ nt ∧
           self_tabs s' = self_tabs s ∧ c_all s' = c_all s.

(** The tabs of [new] are in the store and hold jobs created in them. *)
Definition produced_ok (s : State) (new : list nat) : Prop :=
  ∀ t, t ∈ new →
    t < length (tabs s) ∧
    ∀ j, j ∈ tab_crons s t → ∃ job, jobs s !! j = Some job ∧ cron job = t.

(** ** The invariant and the reachable states *)

(** Every owned tab is in the store. *)
Definition tabs_ok (s : State) : Prop :=
  Forall (λ t, t < length (tabs s)) (self_tabs s).

(** The invariant of an aggregator state. *)
Record Inv (s : State) : Prop := mkInv {
  (* every owned tab is in the store *)
  inv_tabs : tabs_ok s;
  (* an owned tab holds jobs of the store that were created in it *)
  inv_owned : ∀ t j, t ∈ self_tabs s → j ∈ tab_crons s t →
                ∃ job, jobs s !! j = Some job ∧ cron job = t;
  (* the cached view is in the store and holds jobs with a user *)
  inv_view : ∀ v, c_all s = Some v →
               v < length (tabs s) ∧
               ∀ j, j ∈ tab_crons s v → job_user s j ≠ PNone;
  (* while a view is cached every owned job has a user *)
  inv_users : ∀ v, c_all s = Some v →
                ∀ j, j ∈ merged_jobs s → job_user s j ≠ PNone
}.

(** The states of an aggregator: a new instance owns nothing and has no
    cached view (the stores may hold objects of earlier instances); it then
    evolves by [add] and by reads of [all], in any environment; a call that
    raised leaves the state it had reached. *)
Inductive reachable : State → Prop :=
| reach_new js ts : reachable (mkState js ts [] None)
| reach_add w cls loc s :
    reachable s → reachable (final (CronTabs_add w cls loc s))
| reach_all w s :
    reachable s → reachable (final (CronTabs.all w s)).

(** ** The states a discovery step goes through *)

(** The state after [CronTab(user=u, tabfile=f)] read [lines]. *)
Definition opened (u : PyVal) (f : option string) (lines : list JobLine)
           (s : State) : State :=
  mkState (jobs s ++ List.map (line_job (length (tabs s))) lines)
          (tabs s ++ [mkCronTab u f (seq (length (jobs s)) (length lines))])
          (self_tabs s) (c_all s).

(** The entries [SystemTab] opens: those not starting with a dot. *)
Definition visible (item : string) : bool := negb (String.prefix "." item).

(** The entries of the directory that [AnaCronTab.add] turns into a job. *)
Definition absorbs (w : Env) (loc item : string) : bool :=
  negb (String.eqb item "0anacron") && negb (String.prefix "." item)
  && access_X_OK w (os_path_join loc item).

(** The job made for [item] from the template record [anajob]. *)
Definition absorbed (loc : string) (anajob : Job) (self0 : nat) (item : string)
  : Job :=
  mkJob (os_path_join loc item) ("Anacron " ++ last_segment loc)
        (user anajob) (slices anajob) self0.

(** The state after jobs for [items] were added to the tab [self0]. *)
Definition absorb (loc : string) (anajob : Job) (self0 : nat)
           (items : list string) (s : State) : State :=
  mkState (jobs s ++ List.map (absorbed loc anajob self0) items)
          (alter (set_crons (λ cs, cs ++ seq (length (jobs s)) (length items)))
                 self0 (tabs s))
          (self_tabs s) (c_all s).

(** The state after [job.delete()] for a job created in tab [t]. *)
Definition deleted (j t : nat) (s : State) : State :=
  with_tabs (alter (set_crons (filter (λ i, i ≠ j))) t) s.

(** The state after [self.append(CronTab(user=False))] in [AnaCronTab]. *)
Definition seeded (s : State) : State :=
  mkState (jobs s) (tabs s ++ [fresh_view []]) (self_tabs s) (c_all s).

(** The state [AnaCronTab] searches for its template: the seeded handle
    exists and the merged view has been read. *)
Definition searched (w : Env) (s : State) : State := after_all w (seeded s).

(** The first job of the merged view whose command contains [loc]. *)
Definition template (s : State) (loc : string) : option nat :=
  head (List.filter (job_matches s loc) (combined s)).

(** The state after [add] owned the tabs of [new]. *)
Definition owning (new : list nat) (s : State) : State :=
  match new with
  | [] => s
  | _ :: _ => mkState (jobs s) (tabs s) (self_tabs s ++ new) None
  end.

(** ** Example systems *)

(** Python's truth value of a tab when [CronTab] is a container of its jobs
    (the class defines [__len__] in crontab/crontab.py): a tab without jobs
    is false. *)
Definition len_bool (t : CronTab) : bool :=
  match crons t with [] => false | _ :: _ => true end.

(** The schedule [25 6 * * *]. *)
Definition at_6_25 : Schedule := mkSchedule "25" "6" "*" "*" "*".

(** A small Debian-like system: two spool files, one of them abandoned,
    /etc/crontab launching the daily anacron directory, one drop-in. *)
Definition debian : Env :=
  mkEnv
    (fun p =>
       if String.eqb p "/var/spool/cron/crontabs/" then Some ["alice"; "bob"]
       else if String.eqb p "/etc/cron.d/" then Some [".placeholder"; "job1"]
       else if String.eqb p "/etc/cron.daily"
            then Some ["0anacron"; ".bak"; "run.sh"; "README"]
       else None)
    (fun p => String.eqb p "/var/spool/cron/crontabs/"
              || String.eqb p "/etc/cron.d/" || String.eqb p "/etc/cron.daily")
    (fun p => String.eqb p "/etc/crontab")
    (fun p =>
       if String.eqb p "/var/spool/cron/crontabs/alice" then Some 1000
       else if String.eqb p "/var/spool/cron/crontabs/bob" then Some 1001
       else None)
    (fun uid => if Nat.eqb uid 1000 then Some "alice" else None)
    (fun p => String.eqb p "/etc/cron.daily/run.sh"
              || String.eqb p "/etc/cron.daily/0anacron")
    "alice"
    (fun n =>
       if String.eqb n "alice"
       then inr [mkJobLine "echo hi" "" PNone every_minute]
       else inr [])
    (fun p =>
       if String.eqb p "/etc/crontab"
       then inr [mkJobLine "run-parts /etc/cron.daily" "" (PStr "root") at_6_25]
       else if String.eqb p "/var/spool/cron/crontabs/bob"
       then inr [mkJobLine "old job" "" PNone every_minute]
       else if String.eqb p "/etc/cron.d/job1"
       then inr [mkJobLine "job1 cmd" "" (PStr "root") every_minute]
       else inl EngineError)
    len_bool.

(** The aggregator of [debian] after the spool was added: two tabs whose
    jobs have no user yet, and no cached view. *)
Definition debian_spool : State :=
  final (CronTabs_add debian cUserSpool "/var/spool/cron/crontabs/" empty_state).

(** The aggregator of [debian] after the spool and /etc/crontab were added. *)
Definition debian_two : State :=
  final (CronTabs_add debian cSystemTab "/etc/crontab"
    (final (CronTabs_add debian cUserSpool "/var/spool/cron/crontabs/"
       empty_state))).

(** A system where nothing can be listed and the invoking user has an empty
    crontab. *)
Definition bare : Env :=
  mkEnv (fun _ => None) (fun _ => false) (fun _ => false) (fun _ => None)
        (fun _ => None) (fun _ => false) "pi"
        (fun _ => inr []) (fun _ => inl EngineError) len_bool.

(** A system where nothing can be listed and the engine cannot open the
    invoking user's crontab; every tab counts as true. *)
Definition broken : Env :=
  mkEnv (fun _ => None) (fun _ => false) (fun _ => false) (fun _ => None)
        (fun _ => None) (fun _ => false) "pi"
        (fun _ => inl EngineError) (fun _ => inl EngineError) (fun _ => true).

(** [debian] with /etc/cron.d/ and /etc/cron.daily unreadable: both are
    directories, and [os.listdir] raises on them. *)
Definition locked : Env :=
  mkEnv
    (fun p =>
       if String.eqb p "/etc/cron.d/" || String.eqb p "/etc/cron.daily"
       then None else os_listdir debian p)
    (os_isdir debian) (os_isfile debian) (os_stat_uid debian) (getpwuid debian)
    (access_X_OK debian) (current_user debian)
    (crontab_of_user debian) (crontab_of_file debian) (tab_bool debian).

(** ** Claims as they are stated *)

(** C3 as the claim states it, second half: after an [add] that appended a
    handle, the next read shows every job the previous read showed. *)
Definition later_read_keeps_jobs : Prop :=
  ∀ (w : Env) (cls : TabSource) (loc : string) (s s0 s1 s2 : State) (v0 v1 : nat),
    reachable s → CronTabs.all w s = Ok v0 s0 →
    CronTabs_add w cls loc s0 = Ok tt s1 → self_tabs s1 ≠ self_tabs s0 →
    CronTabs.all w s1 = Ok v1 s2 →
    ∀ j, j ∈ tab_crons s0 v0 → j ∈ tab_crons s2 v1.

(** C4 as the claim states it: whenever the listing yields no entry, the
    spool is exactly one handle, the invoking user's. *)
Definition spool_never_empty : Prop :=
  ∀ (w : Env) (D : string) (s : State),
    os_listdir w D = None ∨ os_listdir w D = Some [] →
    ∃ t s' cs, UserSpool.init w D s = Ok [t] s' ∧
               tabs s' !! t = Some (mkCronTab (PBool true) None cs).


(** C6 as the claim states it, first case: a directory gives exactly one
    ownerless handle per entry whose name does not start with a dot, bound
    to the entry's full path. *)
Definition system_tab_per_entry : Prop :=
  ∀ (w : Env) (P : string) (s : State) (items : list string),
    os_isdir w P = true → os_listdir w P = Some items →
    Forall (λ item, item ≠ EmptyString) items →
    ∃ new s', SystemTab.init w P s = Ok new s' ∧
      Forall2 (λ t item, ∃ cs, tabs s' !! t =
                 Some (mkCronTab (PBool false) (Some (os_path_join P item)) cs))
              new (List.filter visible items).

(** C7 as the claim states it, second half: without a template the call
    produces the empty seeded handle and leaves every existing job as it
    was. *)
Definition search_leaves_jobs : Prop :=
  ∀ (w : Env) (loc : string) (s : State),
    reachable s → self_tabs s ≠ [] → os_isdir w loc = true →
    template s loc = None →
    ∃ s', AnaCronTab.init w loc s = Ok [length (tabs s)] s' ∧
          tabs s' !! length (tabs s) = Some (mkCronTab (PBool false) None []) ∧
          ∀ j job, jobs s !! j = Some job → jobs s' !! j = Some job.

(** ** Vocabulary of the further properties *)

(** [c in s] for a character. *)
Fixpoint has_char (c : ascii) (s : string) : bool :=
  match s with
  | EmptyString => false
  | String a s' => Ascii.eqb a c || has_char c s'
  end.

(** A run of calls [CronTabs()], one per environment of [ws]: what each call
    returned or raised, and the process after the last one. *)
Fixpoint calls (ws : list Env) (p : Process) : list (exn + nat) * Process :=
  match ws with
  | [] => ([], p)
  | w :: ws' =>
      let '(r, p1) := CronTabs_call w p in
      let '(rs, p2) := calls ws' p1 in
      (r :: rs, p2)
  end.

(** The handles of [new] are distinct objects allocated at or after index
    [n], each listing its jobs once and satisfying [Q]. *)
Definition handles_new (Q : CronTab → Prop) (n : nat) (s : State)
           (new : list nat) : Prop :=
  NoDup new ∧
  ∀ t, t ∈ new →
    n ≤ t ∧ ∃ tab, tabs s !! t = Some tab ∧ NoDup (crons tab) ∧ Q tab.

(** A handle [UserSpool] made for an entry of the listing: it is true, and
    it is bound to the user the entry is named after when that user owns the
    file, to the file path otherwise. *)
Definition entry_handle (w : Env) (loc : string) (names : list string)
           (tab : CronTab) : Prop :=
  tab_bool w tab = true ∧
  ∃ n uid, n ∈ names ∧ os_stat_uid w (os_path_join loc n) = Some uid ∧
    ((getpwuid w uid = Some n ∧ tab_user tab = PStr n ∧ tabfile tab = None) ∨
     (getpwuid w uid ≠ Some n ∧ tab_user tab = PNone ∧
      tabfile tab = Some (os_path_join loc n))).

(** The fallback handle of [UserSpool]: the invoking user's crontab, true. *)
Definition own_handle (w : Env) (tab : CronTab) : Prop :=
  tab_bool w tab = true ∧ tab_user tab = PBool true ∧ tabfile tab = None.

(** The second invariant of an aggregator state: a cached view is current,
    no handle is owned twice, no owned tab lists a job twice. *)
Record Tidy (s : State) : Prop := mkTidy {
  tidy_cache : ∀ v, c_all s = Some v → tab_crons s v = merged_jobs s;
  tidy_handles : NoDup (self_tabs s);
  tidy_jobs : ∀ t, t ∈ self_tabs s → NoDup (tab_crons s t)
}.

(** [debian] with a spool entry, listed after alice's, whose file cannot be
    stat'ed (a dangling link, say). *)
Definition debian_stale : Env :=
  mkEnv (fun _ => Some ["alice"; "gone"]) (os_isdir debian) (os_isfile debian)
        (os_stat_uid debian) (getpwuid debian) (access_X_OK debian) "alice"
        (crontab_of_user debian) (crontab_of_file debian) len_bool.

(** [debian] with a subdirectory in /etc/cron.d/, which the engine cannot
    open as a crontab. *)
Definition debian_subdir : Env :=
  mkEnv (fun p => if String.eqb p "/etc/cron.d/" then Some ["job1"; "sub"]
                  else os_listdir debian p)
        (os_isdir debian) (os_isfile debian) (os_stat_uid debian)
        (getpwuid debian) (access_X_OK debian) "alice"
        (crontab_of_user debian) (crontab_of_file debian) len_bool.

(** A spool with one entry, carol's own crontab, which holds no job; the
    invoking user is alice, whose crontab holds one. *)
Definition debian_idle : Env :=
  mkEnv (fun p => if String.eqb p "/var/spool/cron/crontabs/"
                  then Some ["carol"] else None)
        (os_isdir debian) (os_isfile debian)
        (fun p => if String.eqb p "/var/spool/cron/crontabs/carol"
                  then Some 1002 else None)
        (fun uid => if Nat.eqb uid 1002 then Some "carol" else None)
        (access_X_OK debian) "alice"
        (crontab_of_user debian) (crontab_of_file debian) len_bool.

(** [evolves s s']: the aggregator gets from [s] to [s'] by calls of [add]
    and reads of [all], in any environments; a call that raised counts, with
    the state it left. *)
Inductive evolves (s : State) : State → Prop :=
| evolves_here : evolves s s
| evolves_add w cls loc s' :
    evolves s s' → evolves s (final (CronTabs_add w cls loc s'))
| evolves_all w s' :
    evolves s s' → evolves s (final (CronTabs.all w s')).

(** * Properties *)

(** ** The merged view, as a function of the state it is built from *)

Ltac monad := unfold bind, ret, raise, get, modify in *; simpl in *.

Lemma new_system_tab w s :
  new_CronTab w (PBool false) None s =
  Ok (length (tabs s))
     (mkState (jobs s) (tabs s ++ [fresh_view []]) (self_tabs s) (c_all s)).
Proof.
  unfold new_CronTab; simpl. by rewrite app_nil_r.
Qed.

Lemma default_user_not_None w s t : CronTabs.default_user w s t ≠ PNone.
Proof.
  unfold CronTabs.default_user, py_or.
  destruct (tabs s !! t) as [tab|]; [|done].
  destruct (CronTab_user w tab) as [|[]|]; simpl; try done.
  by destruct (negb _).
Qed.

Lemma alter_app_last {A} (f : A → A) (l : list A) (x : A) :
  alter f (length l) (l ++ [x]) = l ++ [f x].
Proof. induction l; simpl; [done | by f_equal]. Qed.

Section Rebuild.
Variable w : Env.
Variable s0 : State.

Lemma default_user_mid js vc t :
  CronTabs.default_user w (mid s0 js vc) t = CronTabs.default_user w s0 t.
Proof.
  unfold CronTabs.default_user, mid; simpl.
  destruct (decide (t < length (tabs s0))) as [Hlt|Hge].
  - by rewrite lookup_app_l.
  - rewrite (lookup_ge_None_2 (tabs s0)) by lia.
    destruct (decide (t = length (tabs s0))) as [->|Hne].
    + rewrite list_lookup_middle by done. done.
    + rewrite lookup_ge_None_2; [done|]. rewrite length_app; simpl. lia.
Qed.

Lemma fix_user_alter d j (js : list Job) :
  (if is_None (match js !! j with Some job => user job | None => PNone end)
   then alter (set_user d) j js else js) = alter (fix_user d) j js.
Proof.
  revert j; induction js as [|a js IH]; intros [|j]; simpl; try done.
  - unfold fix_user. by destruct (is_None (user a)).
  - specialize (IH j). destruct (is_None _); by f_equal.
Qed.

Lemma visit_mid t j js vc :
  CronTabs.visit w (length (tabs s0)) t j (mid s0 js vc) =
  Ok tt (mid s0 (assign w s0 t js j) (vc ++ [j])).
Proof.
  unfold CronTabs.visit, append. monad.
  unfold job_user; simpl.
  pose proof (fix_user_alter (CronTabs.default_user w (mid s0 js vc) t) j js) as E.
  rewrite default_user_mid in E.
  unfold assign, mid. rewrite <- E.
  pose proof (default_user_mid js vc t) as D. unfold mid in D.
  destruct (is_None _); simpl; unfold with_tabs; simpl;
    by rewrite alter_app_last, ?D.
Qed.

Lemma inner_mid t cs : ∀ js vc,
  for_each cs (CronTabs.visit w (length (tabs s0)) t) (mid s0 js vc) =
  Ok tt (mid s0 (fold_left (assign w s0 t) cs js) (vc ++ cs)).
Proof.
  induction cs as [|j cs IH]; intros js vc; simpl.
  - by rewrite app_nil_r.
  - unfold bind. rewrite visit_mid, IH. by rewrite <- app_assoc.
Qed.

Lemma tab_crons_mid js vc t :
  t < length (tabs s0) → tab_crons (mid s0 js vc) t = tab_crons s0 t.
Proof. intros H. unfold tab_crons, mid; simpl. by rewrite lookup_app_l. Qed.

Lemma outer_mid ts : ∀ js vc,
  Forall (λ t, t < length (tabs s0)) ts →
  for_each ts (fun tab =>
    let* s1 := get in
    for_each (tab_crons s1 tab) (CronTabs.visit w (length (tabs s0)) tab))
    (mid s0 js vc) =
  Ok tt (mid s0 (fold_left (assign_tab w s0) ts js)
             (vc ++ concat (List.map (tab_crons s0) ts))).
Proof.
  induction ts as [|t ts IH]; intros js vc Hts; simpl.
  - by rewrite app_nil_r.
  - inversion Hts as [|? ? Ht Hts']; subst.
    unfold bind at 1. unfold bind at 1. unfold get.
    rewrite tab_crons_mid by done. rewrite inner_mid.
    rewrite IH by done. by rewrite app_assoc.
Qed.
End Rebuild.

(** A read with the cache present returns it and changes nothing. *)
Lemma all_cached w s v : c_all s = Some v → CronTabs.all w s = Ok v s.
Proof. intros H. unfold CronTabs.all. monad. by rewrite H. Qed.

(** A read with the cache absent rebuilds the view. *)
Lemma all_rebuild w s :
  c_all s = None → tabs_ok s →
  CronTabs.all w s = Ok (length (tabs s)) (rebuilt w s).
Proof.
  intros Hc Hok. unfold CronTabs.all. unfold bind at 1. unfold get. rewrite Hc.
  unfold bind at 1. rewrite new_system_tab.
  unfold bind at 1. unfold modify, CronTabs.set_all. simpl.
  unfold bind at 1.
  pose proof (outer_mid w s (self_tabs s) (jobs s) [] Hok) as E.
  unfold mid, get in E. simpl in E. rewrite E. done.
Qed.

(** ** What a rebuild does to the job store *)

Lemma fix_user_twice d d' a :
  d ≠ PNone → fix_user d' (fix_user d a) = fix_user d a.
Proof.
  intros Hd. unfold fix_user. destruct (user a) eqn:E; simpl; rewrite ?E; try done.
  by destruct d.
Qed.

Lemma option_fmap_twice {A} (f g h : A → A) (o : option A) :
  (∀ a, g (f a) = h a) → g <$> (f <$> o) = h <$> o.
Proof. intros H. destruct o; simpl; [by rewrite H | done]. Qed.

Lemma assign_lookup w s t cs : ∀ js i,
  fold_left (assign w s t) cs js !! i =
  (if bool_decide (i ∈ cs) then fix_user (CronTabs.default_user w s t) else id)
    <$> js !! i.
Proof.
  induction cs as [|c cs IH]; intros js i; simpl.
  - by destruct (js !! i).
  - rewrite IH. unfold assign.
    destruct (decide (c = i)) as [->|Hne].
    + rewrite list_lookup_alter_eq.
      rewrite (bool_decide_eq_true_2 (i ∈ i :: cs)) by apply list_elem_of_here.
      apply option_fmap_twice. intros a.
      destruct (bool_decide _); [|done].
      apply fix_user_twice, default_user_not_None.
    + rewrite list_lookup_alter_ne by done.
      destruct (decide (i ∈ cs)) as [Hin|Hnin].
      * rewrite !bool_decide_eq_true_2; [done| |done].
        by apply list_elem_of_further.
      * rewrite !bool_decide_eq_false_2; [done| |done].
        intros [?|?]%elem_of_cons; congruence.
Qed.

Lemma assign_tab_lookup w s ts : ∀ js i,
  fold_left (assign_tab w s) ts js !! i =
  fix_by w s (owner_in s ts i) <$> js !! i.
Proof.
  induction ts as [|t ts IH]; intros js i; simpl.
  - by destruct (js !! i).
  - rewrite IH. unfold assign_tab. rewrite assign_lookup.
    apply option_fmap_twice. intros a.
    destruct (bool_decide (i ∈ tab_crons s t)); simpl; [|done].
    destruct (owner_in s ts i); simpl; [|done].
    apply fix_user_twice, default_user_not_None.
Qed.

(** The job store after a rebuild, job by job. *)
Lemma assigned_lookup w s i :
  assigned w s !! i = fix_by w s (owner_in s (self_tabs s) i) <$> jobs s !! i.
Proof. apply assign_tab_lookup. Qed.

Lemma owner_in_Some s ts i t :
  owner_in s ts i = Some t → t ∈ ts ∧ i ∈ tab_crons s t.
Proof.
  induction ts as [|t' ts IH]; simpl; [done|].
  destruct (bool_decide (i ∈ tab_crons s t')) eqn:E.
  - intros [= ->]. apply bool_decide_eq_true_1 in E. split; [left|done].
  - intros H. destruct (IH H). split; [by right|done].
Qed.

Lemma owner_in_None s ts i :
  owner_in s ts i = None ↔ i ∉ concat (List.map (tab_crons s) ts).
Proof.
  induction ts as [|t' ts IH]; simpl.
  - split; [intros _; apply not_elem_of_nil|done].
  - rewrite elem_of_app. destruct (bool_decide (i ∈ tab_crons s t')) eqn:E.
    + apply bool_decide_eq_true_1 in E. split; [done|tauto].
    + apply bool_decide_eq_false_1 in E. rewrite IH. tauto.
Qed.

Lemma elem_of_merged s i :
  i ∈ merged_jobs s ↔ ∃ t, t ∈ self_tabs s ∧ i ∈ tab_crons s t.
Proof.
  unfold merged_jobs. induction (self_tabs s) as [|t ts IH]; simpl.
  - split; [by intros ?%not_elem_of_nil | by intros (?&?%not_elem_of_nil&_)].
  - rewrite elem_of_app, IH. split.
    + intros [H|(t'&?&?)]; [exists t | exists t']; split; try done;
        [left | by right].
    + intros (t'&[->|?]%elem_of_cons&?); [by left | right; eauto].
Qed.

Lemma fix_user_user d a :
  d ≠ PNone → user (fix_user d a) ≠ PNone.
Proof. unfold fix_user. destruct (user a) eqn:E; simpl; by rewrite ?E. Qed.

Lemma fix_user_same d a : user a ≠ PNone → fix_user d a = a.
Proof. unfold fix_user. by destruct (user a). Qed.

Lemma fix_user_None d a : user a = PNone → fix_user d a = set_user d a.
Proof. unfold fix_user. by intros ->. Qed.

(** ** What the operations keep *)

Lemma defaulted_refl a : defaulted a a.
Proof. by left. Qed.

Lemma defaulted_trans a b c : defaulted a b → defaulted b c → defaulted a c.
Proof.
  intros [->|(Ha&d&Hd&->)]; [done|].
  intros [->|(Hb&_)].
  - right. eauto.
  - simpl in Hb. congruence.
Qed.

Lemma defaulted_fields a b :
  defaulted a b →
  command b = command a ∧ comment b = comment a ∧ slices b = slices a ∧
  cron b = cron a ∧ (user a ≠ PNone → b = a) ∧ (user b = PNone → b = a).
Proof.
  intros [->|(Ha&d&Hd&->)]; simpl; [done|].
  repeat split; done.
Qed.

Lemma jobs_kept_refl js : jobs_kept js js.
Proof. intros j a H. exists a. split; [done|apply defaulted_refl]. Qed.

Lemma jobs_kept_trans js1 js2 js3 :
  jobs_kept js1 js2 → jobs_kept js2 js3 → jobs_kept js1 js3.
Proof.
  intros H1 H2 j a Ha. destruct (H1 j a Ha) as (b&Hb&Hab).
  destruct (H2 j b Hb) as (c&Hc&Hbc). exists c. split; [done|].
  by eapply defaulted_trans.
Qed.

Lemma jobs_kept_app js nj : jobs_kept js (js ++ nj).
Proof.
  intros j a H. exists a. split; [by apply lookup_app_l_Some|apply defaulted_refl].
Qed.

Lemma jobs_kept_length js js' : jobs_kept js js' → length js ≤ length js'.
Proof.
  intros H. destruct (decide (length js ≤ length js')) as [|Hn]; [done|].
  destruct (lookup_lt_is_Some_2 js (length js')) as [a Ha]; [lia|].
  destruct (H _ _ Ha) as (b&Hb&_). apply lookup_lt_Some in Hb. lia.
Qed.

Lemma tab_kept_refl a : tab_kept a a.
Proof. by repeat split. Qed.

Lemma tabs_kept_refl ts : tabs_kept ts ts.
Proof. intros t a H. exists a. split; [done|apply tab_kept_refl]. Qed.

Lemma tabs_kept_trans ts1 ts2 ts3 :
  tabs_kept ts1 ts2 → tabs_kept ts2 ts3 → tabs_kept ts1 ts3.
Proof.
  intros H1 H2 t a Ha. destruct (H1 t a Ha) as (b&Hb&Eu&Ef&Hs).
  destruct (H2 t b Hb) as (c&Hc&Eu'&Ef'&Hs'). exists c. split; [done|].
  repeat split; [congruence|congruence|auto].
Qed.

Lemma tabs_kept_app ts nt : tabs_kept ts (ts ++ nt).
Proof.
  intros t a H. exists a. split; [by apply lookup_app_l_Some|apply tab_kept_refl].
Qed.

Lemma tabs_kept_length ts ts' : tabs_kept ts ts' → length ts ≤ length ts'.
Proof.
  intros H. destruct (decide (length ts ≤ length ts')) as [|Hn]; [done|].
  destruct (lookup_lt_is_Some_2 ts (length ts')) as [a Ha]; [lia|].
  destruct (H _ _ Ha) as (b&Hb&_). apply lookup_lt_Some in Hb. lia.
Qed.

Lemma frame_refl s : frame s s.
Proof. split; [apply jobs_kept_refl|apply tabs_kept_refl|done]. Qed.

Lemma frame_trans s1 s2 s3 : frame s1 s2 → frame s2 s3 → frame s1 s3.
Proof.
  intros [J1 T1 S1] [J2 T2 S2]. split.
  - by eapply jobs_kept_trans.
  - by eapply tabs_kept_trans.
  - congruence.
Qed.

Lemma allocs_refl s : allocs s s.
Proof. exists [], []. by rewrite !app_nil_r. Qed.

Lemma allocs_trans s1 s2 s3 : allocs s1 s2 → allocs s2 s3 → allocs s1 s3.
Proof.
  intros (nj&nt&J&T&S&C) (nj'&nt'&J'&T'&S'&C').
  exists (nj ++ nj'), (nt ++ nt').
  rewrite J', T', J, T, <- !app_assoc. repeat split; congruence.
Qed.

Lemma allocs_frame s s' : allocs s s' → frame s s'.
Proof.
  intros (nj&nt&J&T&S&C). split; [rewrite J|rewrite T|done].
  - apply jobs_kept_app.
  - apply tabs_kept_app.
Qed.

Lemma tab_crons_kept s s' t j :
  tabs_kept (tabs s) (tabs s') → t < length (tabs s) →
  j ∈ tab_crons s' t → j ∈ tab_crons s t.
Proof.
  intros HT Ht. unfold tab_crons.
  destruct (lookup_lt_is_Some_2 _ _ Ht) as [a Ha].
  destruct (HT _ _ Ha) as (b&Hb&_&_&Hs). rewrite Ha, Hb. apply Hs.
Qed.

Lemma job_user_kept s s' j :
  jobs_kept (jobs s) (jobs s') → job_user s j ≠ PNone →
  jobs s' !! j = jobs s !! j.
Proof.
  intros HJ. unfold job_user. destruct (jobs s !! j) as [a|] eqn:Ha; [|done].
  intros Hu. destruct (HJ _ _ Ha) as (b&Hb&Hab).
  apply defaulted_fields in Hab as (_&_&_&_&Hsame&_). by rewrite Hb, Hsame.
Qed.

(** ** The invariant of the aggregator *)

Lemma tabs_kept_kept_but x ts ts' : tabs_kept ts ts' → tabs_kept_but x ts ts'.
Proof. intros H. split; [by apply tabs_kept_length|]. intros t a _. apply H. Qed.

Lemma tab_crons_kept_but x s s' t j :
  tabs_kept_but x (tabs s) (tabs s') → t < length (tabs s) → t ≠ x →
  j ∈ tab_crons s' t → j ∈ tab_crons s t.
Proof.
  intros [_ HT] Ht Hx. unfold tab_crons.
  destruct (lookup_lt_is_Some_2 _ _ Ht) as [a Ha].
  destruct (HT _ _ Hx Ha) as (b&Hb&_&_&Hs). rewrite Ha, Hb. apply Hs.
Qed.

Lemma tabs_ok_lt s t : tabs_ok s → t ∈ self_tabs s → t < length (tabs s).
Proof. unfold tabs_ok. rewrite Forall_forall. auto. Qed.

(** The invariant survives any step that keeps the jobs, keeps every tab but
    one that is neither owned nor the cached view, and leaves the
    aggregator's list and cache alone. *)
Lemma Inv_kept x s s' :
  Inv s →
  jobs_kept (jobs s) (jobs s') → tabs_kept_but x (tabs s) (tabs s') →
  self_tabs s' = self_tabs s → c_all s' = c_all s →
  x ∉ self_tabs s → c_all s ≠ Some x →
  Inv s'.
Proof.
  intros [I1 I2 I3 I4] J T S C Hx Hv. pose proof T as [TL _].
  assert (∀ t, t ∈ self_tabs s → t < length (tabs s) ∧ t ≠ x) as Hown.
  { intros t Ht. split; [by apply tabs_ok_lt|]. intros ->. done. }
  assert (∀ j, job_user s j ≠ PNone → job_user s' j ≠ PNone) as Hu.
  { intros j H. unfold job_user. rewrite (job_user_kept s s' j J H). exact H. }
  split.
  - unfold tabs_ok in *. rewrite S. eapply Forall_impl; [done|]. simpl. lia.
  - intros t j Ht Hj. rewrite S in Ht. destruct (Hown t Ht) as [Hlt Hne].
    destruct (I2 t j Ht) as (job&Hjob&Hc); [by eapply tab_crons_kept_but|].
    destruct (J _ _ Hjob) as (b&Hb&Hab). exists b. split; [done|].
    apply defaulted_fields in Hab. destruct Hab as (_&_&_&->&_). done.
  - intros v Hv'. rewrite C in Hv'. destruct (I3 v Hv') as [Hlt Hvu]. split; [lia|].
    intros j Hj. apply Hu, Hvu.
    eapply tab_crons_kept_but; [done..| |done]. congruence.
  - intros v Hv' j Hj. rewrite C in Hv'.
    apply elem_of_merged in Hj as (t&Ht&Hj). rewrite S in Ht.
    destruct (Hown t Ht) as [Hlt Hne].
    apply Hu, (I4 v Hv'). apply elem_of_merged. exists t. split; [done|].
    by eapply tab_crons_kept_but.
Qed.

Lemma Inv_frame s s' :
  Inv s → frame s s' → c_all s' = c_all s → Inv s'.
Proof.
  intros I [J T S] C.
  apply (Inv_kept (length (tabs s)) s s'); try done.
  - by apply tabs_kept_kept_but.
  - intros H. apply (tabs_ok_lt s) in H; [lia|apply I].
  - intros H. apply (inv_view s I) in H as [H _]. lia.
Qed.

Lemma Inv_allocs s s' : Inv s → allocs s s' → Inv s'.
Proof.
  intros I A. eapply Inv_frame; [done|by apply allocs_frame|].
  by destruct A as (?&?&?&?&?&?).
Qed.

(** ** Tabs opened by the engine *)

Lemma new_CronTab_Ok w u f s lines :
  read w u f = inr lines →
  new_CronTab w u f s = Ok (length (tabs s)) (opened u f lines s).
Proof. intros H. unfold new_CronTab. by rewrite H. Qed.

Lemma new_CronTab_Raise w u f s e :
  read w u f = inl e → new_CronTab w u f s = Raise e s.
Proof. intros H. unfold new_CronTab. by rewrite H. Qed.

Lemma opened_allocs u f lines s : allocs s (opened u f lines s).
Proof. by eexists _, _. Qed.

Lemma opened_tab u f lines s :
  tabs (opened u f lines s) !! length (tabs s) =
  Some (mkCronTab u f (seq (length (jobs s)) (length lines))).
Proof. simpl. by apply list_lookup_middle. Qed.

Lemma produced_ok_nil s : produced_ok s [].
Proof. intros t H. by apply not_elem_of_nil in H. Qed.

Lemma produced_ok_app s l1 l2 :
  produced_ok s l1 → produced_ok s l2 → produced_ok s (l1 ++ l2).
Proof. intros H1 H2 t [H|H]%elem_of_app; auto. Qed.

Lemma produced_ok_allocs s s' new :
  produced_ok s new → allocs s s' → produced_ok s' new.
Proof.
  intros H (nj&nt&J&T&_&_) t Ht. destruct (H t Ht) as [Hlt Hj].
  split; [rewrite T, length_app; lia|].
  intros j. unfold tab_crons in *. rewrite T, lookup_app_l by done.
  intros Hin. destruct (Hj j Hin) as (job&Hjob&Hc).
  exists job. split; [|done]. rewrite J. by apply lookup_app_l_Some.
Qed.

Lemma opened_produced u f lines s :
  produced_ok (opened u f lines s) [length (tabs s)].
Proof.
  intros t ->%list_elem_of_singleton. split.
  - simpl. rewrite length_app. simpl. lia.
  - intros j. unfold tab_crons. rewrite opened_tab. simpl.
    intros Hj. apply list_elem_of_lookup in Hj as [i Hi].
    apply lookup_seq in Hi as [-> Hi].
    destruct (lookup_lt_is_Some_2 lines i Hi) as [l Hl].
    exists (line_job (length (tabs s)) l). split; [|done].
    rewrite lookup_app_r by lia.
    replace (length (jobs s) + i - length (jobs s)) with i by lia.
    rewrite list_lookup_fmap. by rewrite Hl.
Qed.

Lemma new_CronTab_spec w u f s :
  match new_CronTab w u f s with
  | Ok t s' => allocs s s' ∧ produced_ok s' [t]
  | Raise _ s' => s' = s
  end.
Proof.
  destruct (read w u f) as [e|lines] eqn:E.
  - by rewrite (new_CronTab_Raise _ _ _ _ _ E).
  - rewrite (new_CronTab_Ok _ _ _ _ _ E).
    split; [apply opened_allocs|apply opened_produced].
Qed.

(** ** UserSpool and SystemTab only allocate *)

Lemma append_if_true_spec w self tab s :
  ∃ self', append_if_true w self tab s = Ok self' s ∧
           (self' = self ∨ self' = self ++ [tab]).
Proof.
  unfold append_if_true. destruct (tabs s !! tab) as [t|]; [|eauto].
  destruct (tab_bool w t); eauto.
Qed.

Lemma generate_spec w loc username s :
  match UserSpool.generate w loc username s with
  | Ok t s' => allocs s s' ∧ produced_ok s' [t]
  | Raise _ s' => s' = s
  end.
Proof.
  unfold UserSpool.generate, UserSpool.get_owner, bind.
  destruct (os_stat_uid w _); simpl; [|done].
  destruct (negb _); apply new_CronTab_spec.
Qed.

Lemma UserSpool_entries_spec w loc names : ∀ self s,
  produced_ok s self →
  match UserSpool.entries w loc names self s with
  | Ok new s' => allocs s s' ∧ produced_ok s' new
  | Raise _ s' => allocs s s'
  end.
Proof.
  induction names as [|n names IH]; intros self s Hself; simpl.
  - split; [apply allocs_refl|done].
  - unfold bind at 1. pose proof (generate_spec w loc n s) as G.
    destruct (UserSpool.generate w loc n s) as [t s1|e s1].
    + destruct G as [A P]. unfold bind at 1.
      destruct (append_if_true_spec w self t s1) as (self'&->&Hs).
      assert (produced_ok s1 self') as P'.
      { destruct Hs as [->| ->].
        - by eapply produced_ok_allocs.
        - apply produced_ok_app; [by eapply produced_ok_allocs|done]. }
      specialize (IH self' s1 P').
      destruct (UserSpool.entries w loc names self' s1) as [new s2|e s2].
      * destruct IH as [A' P'']. split; [by eapply allocs_trans|done].
      * by eapply allocs_trans.
    + subst. apply allocs_refl.
Qed.

Lemma UserSpool_spec w loc s :
  match UserSpool.init w loc s with
  | Ok new s' => allocs s s' ∧ produced_ok s' new
  | Raise _ s' => allocs s s'
  end.
Proof.
  unfold UserSpool.init. unfold bind at 1.
  pose proof (UserSpool_entries_spec w loc (UserSpool.listdir w loc) [] s
                (produced_ok_nil s)) as E.
  destruct (UserSpool.entries _ _ _ _ _) as [self s1|e s1]; [|done].
  destruct E as [A P]. destruct self as [|t self]; [|done].
  unfold bind. pose proof (new_CronTab_spec w (PBool true) None s1) as N.
  destruct (new_CronTab _ _ _ _) as [t s2|e s2].
  - destruct N as [A' P'].
    destruct (append_if_true_spec w [] t s2) as (self'&->&Hs).
    split; [by eapply allocs_trans|].
    destruct Hs as [->| ->]; [apply produced_ok_nil|done].
  - by subst.
Qed.

Lemma first_char_spec item s :
  match first_char item s with
  | Ok _ s' => s' = s ∧ item ≠ EmptyString
  | Raise _ s' => s' = s
  end.
Proof. by destruct item. Qed.

Lemma SystemTab_entries_spec w loc items : ∀ self s,
  produced_ok s self →
  match SystemTab.entries w loc items self s with
  | Ok new s' => allocs s s' ∧ produced_ok s' new
  | Raise _ s' => allocs s s'
  end.
Proof.
  induction items as [|item items IH]; intros self s Hself; simpl.
  - split; [apply allocs_refl|done].
  - unfold bind at 1. destruct item as [|c item]; simpl; [apply allocs_refl|].
    destruct (Ascii.eqb c "."); [by apply IH|].
    unfold bind at 1.
    pose proof (new_CronTab_spec w (PBool false)
                  (Some (os_path_join loc (String c item))) s) as N.
    destruct (new_CronTab _ _ _ _) as [t s1|e s1].
    + destruct N as [A P].
      assert (produced_ok s1 (self ++ [t])) as P'.
      { apply produced_ok_app; [by eapply produced_ok_allocs|done]. }
      specialize (IH _ s1 P').
      destruct (SystemTab.entries _ _ _ _ _) as [new s2|e s2].
      * destruct IH as [A' P'']. split; [by eapply allocs_trans|done].
      * by eapply allocs_trans.
    + subst. apply allocs_refl.
Qed.

Lemma SystemTab_spec w loc s :
  match SystemTab.init w loc s with
  | Ok new s' => allocs s s' ∧ produced_ok s' new
  | Raise _ s' => allocs s s'
  end.
Proof.
  unfold SystemTab.init. destruct (os_isdir w loc).
  - destruct (os_listdir w loc) as [items|]; [|apply allocs_refl].
    apply SystemTab_entries_spec, produced_ok_nil.
  - destruct (os_isfile w loc); [|split; [apply allocs_refl|apply produced_ok_nil]].
    unfold bind. pose proof (new_CronTab_spec w (PBool false) (Some loc) s) as N.
    destruct (new_CronTab _ _ _ _) as [t s1|e s1]; [done|].
    subst. apply allocs_refl.
Qed.

(** ** A read of the merged view keeps the invariant *)

Lemma assigned_kept w s : jobs_kept (jobs s) (assigned w s).
Proof.
  intros j a Ha. rewrite assigned_lookup, Ha. simpl. eexists. split; [done|].
  destruct (owner_in s (self_tabs s) j) as [t|]; simpl; [|by left].
  unfold fix_user. destruct (is_None (user a)) eqn:E; [|by left].
  right. split; [by destruct (user a)|].
  eexists. split; [apply (default_user_not_None w s t)|done].
Qed.

Lemma assigned_length w s : length (assigned w s) = length (jobs s).
Proof.
  apply Nat.le_antisymm.
  - destruct (decide (length (assigned w s) ≤ length (jobs s))) as [|Hn]; [done|].
    destruct (lookup_lt_is_Some_2 (assigned w s) (length (jobs s))) as [a Ha]; [lia|].
    rewrite assigned_lookup, lookup_ge_None_2 in Ha by lia. done.
  - apply jobs_kept_length, assigned_kept.
Qed.

Lemma tab_crons_rebuilt w s t :
  t < length (tabs s) → tab_crons (rebuilt w s) t = tab_crons s t.
Proof. intros H. unfold tab_crons, rebuilt; simpl. by rewrite lookup_app_l. Qed.

Lemma merged_jobs_rebuilt w s :
  tabs_ok s → merged_jobs (rebuilt w s) = merged_jobs s.
Proof.
  unfold merged_jobs, tabs_ok. simpl. intros H. f_equal.
  induction H as [|t ts Ht _ IH]; simpl; [done|].
  by rewrite IH, tab_crons_rebuilt.
Qed.

Lemma view_rebuilt w s :
  tab_crons (rebuilt w s) (length (tabs s)) = merged_jobs s.
Proof. unfold tab_crons, rebuilt; simpl. by rewrite list_lookup_middle. Qed.

Lemma rebuilt_frame w s : frame s (rebuilt w s).
Proof. split; [apply assigned_kept|apply tabs_kept_app|done]. Qed.

(** After a rebuild every owned job has a user. *)
Lemma rebuilt_user w s j :
  Inv s → j ∈ merged_jobs s → job_user (rebuilt w s) j ≠ PNone.
Proof.
  intros I Hj. pose proof Hj as Hj'.
  apply elem_of_merged in Hj' as (t&Ht&Hjt).
  destruct (inv_owned s I t j Ht Hjt) as (a&Ha&_).
  unfold job_user. simpl. rewrite assigned_lookup, Ha. simpl.
  destruct (owner_in s (self_tabs s) j) as [t'|] eqn:E.
  - simpl. apply fix_user_user, default_user_not_None.
  - by apply owner_in_None in E.
Qed.

Lemma Inv_rebuilt w s : Inv s → c_all s = None → Inv (rebuilt w s).
Proof.
  intros I C.
  assert (Inv (CronTabs.set_all None (rebuilt w s))) as [I1 I2 _ _].
  { eapply Inv_frame; [exact I| |by rewrite C].
    split; [apply assigned_kept|apply tabs_kept_app|done]. }
  split; [exact I1|exact I2|..].
  - intros v [= <-]. split.
    + simpl. rewrite length_app. simpl. lia.
    + intros j. rewrite view_rebuilt. by apply rebuilt_user.
  - intros v _ j. rewrite merged_jobs_rebuilt by apply I. by apply rebuilt_user.
Qed.

Lemma all_eq w s :
  tabs_ok s → CronTabs.all w s = Ok (view_of s) (after_all w s).
Proof.
  intros H. unfold view_of, after_all. destruct (c_all s) as [v|] eqn:C.
  - by apply all_cached.
  - by apply all_rebuild.
Qed.

Lemma after_all_frame w s : frame s (after_all w s).
Proof.
  unfold after_all. destruct (c_all s); [apply frame_refl|apply rebuilt_frame].
Qed.

Lemma Inv_after_all w s : Inv s → Inv (after_all w s).
Proof.
  intros I. unfold after_all. destruct (c_all s) eqn:C; [done|].
  by apply Inv_rebuilt.
Qed.

Lemma after_all_cache w s : c_all (after_all w s) = Some (view_of s).
Proof. unfold after_all, view_of. by destruct (c_all s) eqn:C. Qed.

Lemma after_all_view w s :
  tab_crons (after_all w s) (view_of s) = combined s.
Proof.
  unfold after_all, view_of, combined. destruct (c_all s); [done|].
  apply view_rebuilt.
Qed.

Lemma after_all_length w s : length (jobs (after_all w s)) = length (jobs s).
Proof.
  unfold after_all. destruct (c_all s); [done|]. apply assigned_length.
Qed.

(** ** Anacron absorption *)

Lemma prefix_dot c item :
  String.prefix "." (String c item) = Ascii.eqb c ".".
Proof.
  change (String.prefix "." (String c item))
    with (if ascii_dec "." c then String.prefix "" item else false).
  destruct (ascii_dec "." c) as [<-|Hne].
  - by destruct item.
  - symmetry. apply Ascii.eqb_neq. congruence.
Qed.

Lemma skipped_eq w loc item s :
  item ≠ EmptyString →
  AnaCronTab.skipped w loc item s = Ok (negb (absorbs w loc item)) s.
Proof.
  intros Hne. unfold AnaCronTab.skipped, absorbs.
  destruct (String.eqb item "0anacron"); [done|].
  destruct item as [|c item]; [done|]. rewrite prefix_dot. monad.
  by rewrite negb_andb, !negb_involutive.
Qed.

Lemma skipped_spec w loc item s :
  match AnaCronTab.skipped w loc item s with
  | Ok _ s' => s' = s
  | Raise _ s' => s' = s
  end.
Proof.
  unfold AnaCronTab.skipped. destruct (String.eqb item "0anacron"); [done|].
  by destruct item.
Qed.

Lemma absorb_nil loc a self0 s : absorb loc a self0 [] s = s.
Proof.
  unfold absorb. simpl. rewrite app_nil_r, list_alter_id; [by destruct s|].
  intros [u f cs]. unfold set_crons. simpl. by rewrite app_nil_r.
Qed.

Lemma absorb_absorb loc a self0 l1 l2 s :
  absorb loc a self0 l2 (absorb loc a self0 l1 s) = absorb loc a self0 (l1 ++ l2) s.
Proof.
  unfold absorb. simpl. f_equal.
  - by rewrite List.map_app, app_assoc.
  - rewrite list_alter_alter_eq. apply list_alter_ext; [|done].
    intros [u f cs] _. unfold set_crons. simpl. f_equal.
    rewrite !length_app, length_map, seq_app, app_assoc. done.
Qed.

Lemma add_eq w self0 loc item anajob a s :
  item ≠ EmptyString → jobs s !! anajob = Some a →
  AnaCronTab.add w self0 loc item anajob s =
  Ok tt (absorb loc a self0 (if absorbs w loc item then [item] else []) s).
Proof.
  intros Hne Ha. unfold AnaCronTab.add. unfold bind at 1.
  rewrite skipped_eq by done. destruct (absorbs w loc item); simpl.
  - unfold bind, get, new, set_comment, setall, modify, job_user. simpl.
    rewrite Ha. unfold with_jobs, with_tabs, absorb. simpl.
    rewrite !alter_app_last. simpl. rewrite (lookup_app_l_Some _ _ _ _ Ha).
    simpl. by rewrite !alter_app_last.
  - by rewrite absorb_nil.
Qed.

Lemma add_spec w self0 loc item anajob a s :
  jobs s !! anajob = Some a →
  ∃ l, final (AnaCronTab.add w self0 loc item anajob s) = absorb loc a self0 l s.
Proof.
  intros Ha. destruct item as [|c item].
  - exists []. by rewrite absorb_nil.
  - rewrite (add_eq _ _ _ _ _ a) by done. eauto.
Qed.

Lemma absorb_template loc a self0 l s anajob :
  jobs s !! anajob = Some a → jobs (absorb loc a self0 l s) !! anajob = Some a.
Proof. intros H. simpl. by apply lookup_app_l_Some. Qed.

(** The loop over the directory, when no name is empty. *)
Lemma add_all_eq w self0 loc anajob a items : ∀ s,
  Forall (λ item, item ≠ EmptyString) items → jobs s !! anajob = Some a →
  for_each items (fun item => AnaCronTab.add w self0 loc item anajob) s =
  Ok tt (absorb loc a self0 (List.filter (absorbs w loc) items) s).
Proof.
  induction items as [|item items IH]; intros s Hne Ha; simpl.
  - by rewrite absorb_nil.
  - inversion Hne as [|? ? Hi Hne']; subst. unfold bind.
    rewrite (add_eq _ _ _ _ _ a) by done.
    rewrite IH; [|done|by apply absorb_template].
    rewrite absorb_absorb. by destruct (absorbs w loc item).
Qed.

(** The loop over the directory in general: it may stop at an empty name. *)
Lemma add_all_spec w self0 loc anajob a items : ∀ s,
  jobs s !! anajob = Some a →
  ∃ l, final (for_each items
                (fun item => AnaCronTab.add w self0 loc item anajob) s) =
       absorb loc a self0 l s.
Proof.
  induction items as [|item items IH]; intros s Ha; simpl.
  - exists []. by rewrite absorb_nil.
  - unfold bind. destruct (add_spec w self0 loc item anajob a s Ha) as [l1 E1].
    destruct (AnaCronTab.add w self0 loc item anajob s) as [[] s1|e s1];
      simpl in E1; subst s1; [|eauto].
    destruct (IH (absorb loc a self0 l1 s)) as [l2 E2];
      [by apply absorb_template|].
    exists (l1 ++ l2). by rewrite E2, absorb_absorb.
Qed.

Lemma delete_eq j a s :
  jobs s !! j = Some a → delete j s = Ok tt (deleted j (cron a) s).
Proof. intros H. unfold delete. by rewrite H. Qed.

Lemma deleted_gone j t s : j ∉ tab_crons (deleted j t s) t.
Proof.
  unfold tab_crons, deleted. simpl. rewrite list_lookup_alter_eq.
  destruct (tabs s !! t) as [tab|]; simpl; [|apply not_elem_of_nil].
  rewrite list_elem_of_filter. tauto.
Qed.

Lemma deleted_kept j t s : tabs_kept (tabs s) (tabs (deleted j t s)).
Proof.
  intros t' a Ha. simpl. destruct (decide (t = t')) as [->|Hne].
  - rewrite list_lookup_alter_eq, Ha. simpl. eexists. split; [done|].
    repeat split. simpl. intros i [_ Hi]%list_elem_of_filter. done.
  - rewrite list_lookup_alter_ne by done. exists a. split; [done|apply tab_kept_refl].
Qed.

Lemma seeded_allocs s : allocs s (seeded s).
Proof. by eexists [], _; rewrite app_nil_r. Qed.

Lemma tabs_ok_seeded s : tabs_ok s → tabs_ok (seeded s).
Proof.
  unfold tabs_ok. simpl. intros H. eapply Forall_impl; [done|].
  simpl. intros t Ht. rewrite length_app. simpl. lia.
Qed.

Lemma AnaCronTab_off w loc s :
  self_tabs s = [] ∨ os_isdir w loc = false →
  AnaCronTab.init w loc s = Ok [] s.
Proof.
  intros H. unfold AnaCronTab.init, bind, get.
  destruct (self_tabs s); [done|]. destruct H as [?| ->]; done.
Qed.

Lemma AnaCronTab_on w loc s :
  self_tabs s ≠ [] → os_isdir w loc = true → tabs_ok s →
  AnaCronTab.init w loc s =
  match find_command (searched w s) (view_of (seeded s)) loc with
  | [] => Ok [length (tabs s)] (searched w s)
  | anajob :: _ =>
      match os_listdir w loc with
      | None => Raise OSError (searched w s)
      | Some items =>
          (let* _ := for_each items (fun item =>
                       AnaCronTab.add w (length (tabs s)) loc item anajob) in
           let* _ := delete anajob in
           ret [length (tabs s)]) (searched w s)
      end
  end.
Proof.
  intros Hs Hd Hok. unfold AnaCronTab.init. unfold bind at 1. unfold get at 1.
  destruct (self_tabs s) eqn:E; [done|]. rewrite Hd.
  unfold bind at 1. rewrite new_system_tab. fold (seeded s).
  unfold bind at 1. rewrite all_eq by by apply tabs_ok_seeded.
  fold (searched w s). unfold bind at 1. unfold get at 1.
  destruct (find_command _ _ _); [done|].
  by destruct (os_listdir w loc).
Qed.

Lemma find_command_job s v text j rest :
  find_command s v text = j :: rest →
  j ∈ tab_crons s v ∧ ∃ a, jobs s !! j = Some a ∧ contains text (command a) = true.
Proof.
  unfold find_command, tab_crons. destruct (tabs s !! v) as [tab|]; [|done].
  intros H.
  assert (j ∈ List.filter (job_matches s text) (crons tab)) as Hin
    by (rewrite H; left).
  apply list_elem_of_In, filter_In in Hin as [Hin Hm].
  split; [by apply list_elem_of_In|].
  unfold job_matches in Hm. destruct (jobs s !! j) as [a|]; [eauto|done].
Qed.

Lemma absorb_kept_but loc a self0 l s :
  tabs_kept_but self0 (tabs s) (tabs (absorb loc a self0 l s)).
Proof.
  split; simpl; [by rewrite length_alter|].
  intros t b Hne Hb. exists b. rewrite list_lookup_alter_ne by done.
  split; [done|apply tab_kept_refl].
Qed.

Lemma Inv_absorb loc a self0 l s :
  Inv s → self0 ∉ self_tabs s → c_all s ≠ Some self0 →
  Inv (absorb loc a self0 l s).
Proof.
  intros I H1 H2. apply (Inv_kept self0 s); try done.
  - apply jobs_kept_app.
  - apply absorb_kept_but.
Qed.

Lemma Inv_deleted j t s : Inv s → Inv (deleted j t s).
Proof.
  intros I. eapply Inv_frame; [done| |done].
  split; [apply jobs_kept_refl|apply deleted_kept|done].
Qed.

Lemma Inv_searched w s : Inv s → Inv (searched w s).
Proof.
  intros I. apply Inv_after_all. eapply Inv_allocs; [done|apply seeded_allocs].
Qed.

Lemma searched_self w s : self_tabs (searched w s) = self_tabs s.
Proof. unfold searched. by rewrite (fr_self _ _ (after_all_frame w (seeded s))). Qed.

Lemma searched_frame w s : frame s (searched w s).
Proof.
  eapply frame_trans; [apply allocs_frame, seeded_allocs|apply after_all_frame].
Qed.

(** The seeded handle is still empty after the merged view was read. *)
Lemma searched_seed w s :
  tabs (searched w s) !! length (tabs s) = Some (fresh_view []).
Proof.
  unfold searched, after_all. destruct (c_all (seeded s)); simpl.
  - by apply list_lookup_middle.
  - apply lookup_app_l_Some. by apply list_lookup_middle.
Qed.

Lemma searched_cache w s :
  Inv s → c_all (searched w s) ≠ Some (length (tabs s)).
Proof.
  intros I. unfold searched. rewrite after_all_cache. unfold view_of. simpl.
  destruct (c_all s) as [v|] eqn:C.
  - apply (inv_view s I) in C as [C _]. intros [= ->]. lia.
  - rewrite length_app. simpl. intros [= H]. lia.
Qed.

Lemma seed_not_owned s : tabs_ok s → length (tabs s) ∉ self_tabs s.
Proof. intros H Hin. apply (tabs_ok_lt s) in Hin; [lia|done]. Qed.

Lemma absorb_seed loc a self0 l s :
  tabs s !! self0 = Some (fresh_view []) →
  tabs (absorb loc a self0 l s) !! self0 =
  Some (fresh_view (seq (length (jobs s)) (length l))).
Proof. intros H. simpl. by rewrite list_lookup_alter_eq, H. Qed.

Lemma absorb_job loc a self0 l s i item :
  l !! i = Some item →
  jobs (absorb loc a self0 l s) !! (length (jobs s) + i) =
  Some (absorbed loc a self0 item).
Proof.
  intros H. simpl. rewrite lookup_app_r by lia.
  replace (length (jobs s) + i - length (jobs s)) with i by lia.
  by rewrite list_lookup_fmap, H.
Qed.

Lemma absorb_produced loc a self0 l s :
  tabs s !! self0 = Some (fresh_view []) →
  produced_ok (absorb loc a self0 l s) [self0].
Proof.
  intros H t ->%list_elem_of_singleton. split.
  - simpl. rewrite length_alter. by eapply lookup_lt_Some.
  - intros j. unfold tab_crons. rewrite absorb_seed by done. simpl.
    intros Hj. apply list_elem_of_lookup in Hj as [i Hi].
    apply lookup_seq in Hi as [-> Hi].
    destruct (lookup_lt_is_Some_2 l i Hi) as [item Hitem].
    eexists. split; [by apply absorb_job|done].
Qed.

Lemma produced_ok_deleted j t s new :
  produced_ok s new → produced_ok (deleted j t s) new.
Proof.
  intros H t' Ht'. destruct (H t' Ht') as [Hlt Hj]. split.
  - simpl. by rewrite length_alter.
  - intros i Hi. apply Hj. eapply tab_crons_kept; [apply deleted_kept|done..].
Qed.

(** [AnaCronTab] keeps the invariant, and what it returns can be owned. *)
Lemma AnaCronTab_spec w loc s :
  Inv s →
  match AnaCronTab.init w loc s with
  | Ok new s' => Inv s' ∧ produced_ok s' new
  | Raise _ s' => Inv s'
  end.
Proof.
  intros I.
  destruct (decide (self_tabs s = [])) as [E|E].
  { rewrite AnaCronTab_off by auto. split; [done|apply produced_ok_nil]. }
  destruct (os_isdir w loc) eqn:D.
  2: { rewrite AnaCronTab_off by auto. split; [done|apply produced_ok_nil]. }
  rewrite AnaCronTab_on by (done || apply I).
  pose proof (Inv_searched w s I) as I1.
  pose proof (searched_seed w s) as Hseed.
  destruct (find_command _ _ _) as [|anajob rest] eqn:F.
  { split; [done|]. pose proof (absorb_produced loc
      (mkJob "" "" PNone every_minute 0) _ [] _ Hseed) as P.
    by rewrite absorb_nil in P. }
  apply find_command_job in F as (_&a&Ha&_).
  destruct (os_listdir w loc) as [items|]; [|done].
  unfold bind at 1.
  destruct (add_all_spec w (length (tabs s)) loc anajob a items _ Ha) as [l El].
  assert (Inv (absorb loc a (length (tabs s)) l (searched w s))) as I2.
  { apply Inv_absorb; [done| |by apply searched_cache].
    rewrite searched_self. apply seed_not_owned, I. }
  destruct (for_each items _ _) as [[] s2|e s2]; simpl in El; subst s2; [|done].
  unfold bind. rewrite (delete_eq _ a) by by apply absorb_template.
  split; [by apply Inv_deleted|].
  apply produced_ok_deleted. by apply absorb_produced.
Qed.

(** ** Every reachable state satisfies the invariant *)

Lemma construct_spec w cls loc s :
  Inv s →
  match construct w cls loc s with
  | Ok new s' => Inv s' ∧ produced_ok s' new
  | Raise _ s' => Inv s'
  end.
Proof.
  intros I. destruct cls; simpl.
  - pose proof (UserSpool_spec w loc s) as H.
    destruct (UserSpool.init w loc s); [destruct H|]; eauto using Inv_allocs.
  - pose proof (SystemTab_spec w loc s) as H.
    destruct (SystemTab.init w loc s); [destruct H|]; eauto using Inv_allocs.
  - by apply AnaCronTab_spec.
Qed.

Lemma own_all new : ∀ s,
  for_each new (fun tab => modify (own tab)) s = Ok tt (owning new s).
Proof.
  induction new as [|t new IH]; intros s; simpl; [done|].
  unfold bind, modify. rewrite IH. unfold owning, own. simpl.
  destruct new; simpl; [done|]. by rewrite <- app_assoc.
Qed.

Lemma add_eq_construct w cls loc s :
  CronTabs_add w cls loc s =
  match construct w cls loc s with
  | Ok new s' => Ok tt (owning new s')
  | Raise e s' => Raise e s'
  end.
Proof.
  unfold CronTabs_add, bind. destruct (construct w cls loc s); [|done].
  apply own_all.
Qed.

Lemma Inv_owning new s : Inv s → produced_ok s new → Inv (owning new s).
Proof.
  intros I P. destruct new as [|t new]; [done|].
  set (new' := t :: new) in *. split; simpl; try done.
  - unfold tabs_ok. simpl. apply Forall_app. split; [apply I|].
    apply Forall_forall. intros x Hx. by apply P.
  - intros x j [Hx|Hx]%elem_of_app Hj.
    + by apply (inv_owned s I).
    + by apply (P x Hx).
Qed.

Lemma Inv_add w cls loc s : Inv s → Inv (final (CronTabs_add w cls loc s)).
Proof.
  intros I. rewrite add_eq_construct.
  pose proof (construct_spec w cls loc s I) as H.
  destruct (construct w cls loc s); simpl; [|done].
  destruct H. by apply Inv_owning.
Qed.

Lemma Inv_all w s : Inv s → Inv (final (CronTabs.all w s)).
Proof.
  intros I. rewrite all_eq by apply I. simpl. by apply Inv_after_all.
Qed.

Lemma reachable_Inv s : reachable s → Inv s.
Proof.
  induction 1 as [js ts|w cls loc s _ IH|w s _ IH].
  - split; simpl; try done.
    + apply Forall_nil_2.
    + intros t j Ht. by apply not_elem_of_nil in Ht.
  - by apply Inv_add.
  - by apply Inv_all.
Qed.

(** The discovery pass of [CronTabs.__init__] stays within the reachable
    states, whether it completes or raises. *)
Lemma reachable_locations w locs : ∀ s,
  reachable s →
  reachable (final (for_each locs (fun '(cls, loc) => CronTabs_add w cls loc) s)).
Proof.
  induction locs as [|[cls loc] locs IH]; intros s R; simpl; [done|].
  unfold bind. pose proof (reach_add w cls loc s R) as R1.
  destruct (CronTabs_add w cls loc s) as [[] s1|e s1]; simpl in R1; [|done].
  by apply IH.
Qed.

Lemma reachable_init w s : reachable s → reachable (final (CronTabs_init w s)).
Proof.
  intros R. unfold CronTabs_init, bind, get.
  destruct (self_tabs s); [|done]. by apply reachable_locations.
Qed.

(** ** The read of the merged view assigns users (shared by the claims on
    [CronTabs.all]) *)

Lemma default_user_eq w s t tab :
  tabs s !! t = Some tab →
  CronTabs.default_user w s t = py_or (CronTab_user w tab) (PStr "unknown").
Proof. intros H. unfold CronTabs.default_user. by rewrite H. Qed.

Lemma tab_crons_eq s t tab : tabs s !! t = Some tab → tab_crons s t = crons tab.
Proof. intros H. unfold tab_crons. by rewrite H. Qed.

Lemma read_assigns w s t tab j job :
  Inv s → t ∈ self_tabs s → tabs s !! t = Some tab → j ∈ crons tab →
  jobs s !! j = Some job → user job = PNone →
  c_all s = None ∧
  jobs (after_all w s) !! j =
    Some (set_user (py_or (CronTab_user w tab) (PStr "unknown")) job).
Proof.
  intros I Ht Htab Hj Hjob Hu.
  assert (j ∈ tab_crons s t) as Hjt by by rewrite (tab_crons_eq _ _ _ Htab).
  assert (c_all s = None) as C.
  { destruct (c_all s) as [v|] eqn:C; [exfalso|done].
    assert (job_user s j ≠ PNone) as H.
    { apply (inv_users s I v C), elem_of_merged. eauto. }
    unfold job_user in H. by rewrite Hjob in H. }
  split; [done|]. unfold after_all. rewrite C. simpl.
  rewrite assigned_lookup, Hjob. simpl. f_equal.
  destruct (owner_in s (self_tabs s) j) as [t'|] eqn:O.
  - apply owner_in_Some in O as [Ht' Hjt'].
    destruct (inv_owned s I t j Ht Hjt) as (a&Ha&Hc).
    destruct (inv_owned s I t' j Ht' Hjt') as (a'&Ha'&Hc').
    assert (t' = t) as -> by congruence.
    simpl. rewrite fix_user_None by done. by rewrite (default_user_eq _ _ _ _ Htab).
  - apply owner_in_None in O. exfalso. apply O.
    change (j ∈ merged_jobs s). apply elem_of_merged. eauto.
Qed.

Lemma view_users w s j :
  Inv s → j ∈ tab_crons (after_all w s) (view_of s) →
  ∃ job, jobs (after_all w s) !! j = Some job ∧ user job ≠ PNone.
Proof.
  intros I Hj. pose proof (Inv_after_all w s I) as I'.
  destruct (inv_view _ I' _ (after_all_cache w s)) as [_ H].
  specialize (H j Hj). unfold job_user in H.
  destruct (jobs (after_all w s) !! j) as [job|]; [eauto|done].
Qed.

(** C2. In every state of the aggregator a read of [CronTabs.all] returns a
    view in which every job has a user that is not [None]; a job of an owned
    tab whose user is [None] at the read gets [tab.user], or ['unknown'] when
    [tab.user] is false (no user). *)
Theorem all_jobs_have_user (w : Env) (s : State) :
  reachable s →
  ∃ v s', CronTabs.all w s = Ok v s' ∧
    (∀ j, j ∈ tab_crons s' v →
          ∃ job, jobs s' !! j = Some job ∧ user job ≠ PNone) ∧
    (∀ t tab j job,
        t ∈ self_tabs s → tabs s !! t = Some tab → j ∈ crons tab →
        jobs s !! j = Some job → user job = PNone →
        ∃ job', jobs s' !! j = Some job' ∧
                user job' = (if truthy (CronTab_user w tab)
                             then CronTab_user w tab else PStr "unknown")).
Proof.
  intros R. pose proof (reachable_Inv s R) as I.
  exists (view_of s), (after_all w s). split; [apply all_eq, I|]. split.
  - intros j. by apply view_users.
  - intros t tab j job Ht Htab Hj Hjob Hu.
    destruct (read_assigns w s t tab j job I Ht Htab Hj Hjob Hu) as [_ E].
    eexists. split; [exact E|done].
Qed.

Lemma all_jobs_have_user_witness :
  reachable debian_two ∧
  ∃ v s', CronTabs.all debian debian_two = Ok v s' ∧
    (∀ j, j ∈ tab_crons s' v →
          ∃ job, jobs s' !! j = Some job ∧ user job ≠ PNone).
Proof.
  assert (reachable debian_two) as R.
  { unfold debian_two, empty_state. do 2 apply reach_add. apply reach_new. }
  split; [exact R|].
  destruct (all_jobs_have_user debian debian_two R) as (v&s'&E&H&_).
  by exists v, s'.
Defined.

Lemma py_or_not_None a s : py_or a (PStr s) ≠ PNone.
Proof. unfold py_or. by destruct a as [|[]|]; simpl; [| | |destruct (negb _)]. Qed.

(** C10. A read of [CronTabs.all] acts on the owned handles: the view it
    builds refers to the job objects of the owned tabs (no job is created, the
    view lists the very references the tabs list), and a job of an owned tab
    whose user is [None] at the read has its user field assigned in the store,
    so the tab it lives in sees the new user too, and later reads keep it. *)
Theorem all_assigns_in_place (w : Env) (s : State) :
  reachable s →
  ∃ v s', CronTabs.all w s = Ok v s' ∧
    length (jobs s') = length (jobs s) ∧
    (∀ t, t ∈ self_tabs s → tab_crons s' t = tab_crons s t) ∧
    (c_all s = None → tab_crons s' v = merged_jobs s') ∧
    (∀ t tab j job,
        t ∈ self_tabs s → tabs s !! t = Some tab → j ∈ crons tab →
        jobs s !! j = Some job → user job = PNone →
        j ∈ tab_crons s' v ∧ j ∈ tab_crons s' t ∧
        jobs s' !! j =
          Some (set_user (py_or (CronTab_user w tab) (PStr "unknown")) job) ∧
        jobs s' !! j ≠ jobs s !! j ∧
        ∀ w', CronTabs.all w' s' = Ok v s').
Proof.
  intros R. pose proof (reachable_Inv s R) as I.
  exists (view_of s), (after_all w s). split; [apply all_eq, I|].
  assert (∀ t, t ∈ self_tabs s → tab_crons (after_all w s) t = tab_crons s t) as Hsame.
  { intros t Ht. unfold after_all. destruct (c_all s); [done|].
    apply tab_crons_rebuilt, tabs_ok_lt; [apply I|done]. }
  split; [apply after_all_length|]. split; [done|]. split.
  - intros C. unfold after_all, view_of. rewrite C.
    by rewrite view_rebuilt, merged_jobs_rebuilt by apply I.
  - intros t tab j job Ht Htab Hj Hjob Hu.
    destruct (read_assigns w s t tab j job I Ht Htab Hj Hjob Hu) as [C E].
    assert (j ∈ tab_crons s t) as Hjt by by rewrite (tab_crons_eq _ _ _ Htab).
    repeat split.
    + rewrite after_all_view. unfold combined. rewrite C.
      apply elem_of_merged. eauto.
    + by rewrite Hsame.
    + exact E.
    + rewrite E, Hjob. intros [= H]. unfold set_user in H.
      destruct job as [c m u sl cr]. simpl in *. injection H as H.
      subst u. by eapply py_or_not_None.
    + intros w'. apply all_cached, after_all_cache.
Qed.

Lemma all_assigns_in_place_witness :
  reachable debian_two ∧
  ∃ v s', CronTabs.all debian debian_two = Ok v s' ∧
          length (jobs s') = length (jobs debian_two).
Proof.
  assert (reachable debian_two) as R.
  { unfold debian_two, empty_state. do 2 apply reach_add. apply reach_new. }
  split; [exact R|].
  destruct (all_assigns_in_place debian debian_two R) as (v&s'&E&H&_).
  by exists v, s'.
Defined.

(** ** The template job of an absorption *)

Lemma job_matches_after_all w s text j :
  job_matches (after_all w s) text j = job_matches s text j.
Proof.
  unfold after_all. destruct (c_all s); [done|].
  unfold job_matches. simpl. rewrite assigned_lookup.
  destruct (jobs s !! j) as [a|]; simpl; [|done].
  destruct (owner_in _ _ _); simpl; [|done].
  unfold fix_user. by destruct (is_None _).
Qed.

Lemma tab_crons_seeded s t :
  t < length (tabs s) → tab_crons (seeded s) t = tab_crons s t.
Proof. intros H. unfold tab_crons. simpl. by rewrite lookup_app_l. Qed.

Lemma merged_jobs_seeded s : tabs_ok s → merged_jobs (seeded s) = merged_jobs s.
Proof.
  unfold merged_jobs, tabs_ok. simpl. intros H. f_equal.
  induction H as [|t ts Ht _ IH]; simpl; [done|].
  by rewrite IH, tab_crons_seeded.
Qed.

Lemma combined_seeded s : Inv s → combined (seeded s) = combined s.
Proof.
  intros I. unfold combined. simpl. destruct (c_all s) as [v|] eqn:C.
  - apply tab_crons_seeded. by apply (inv_view s I).
  - apply merged_jobs_seeded, I.
Qed.

Lemma find_command_searched w s loc :
  Inv s →
  find_command (searched w s) (view_of (seeded s)) loc =
  List.filter (job_matches s loc) (combined s).
Proof.
  intros I. unfold find_command, searched.
  pose proof (after_all_view w (seeded s)) as V. unfold tab_crons in V.
  pose proof (Inv_after_all w (seeded s)
                (Inv_allocs _ _ I (seeded_allocs s))) as I'.
  destruct (inv_view _ I' _ (after_all_cache w (seeded s))) as [Hlt _].
  destruct (lookup_lt_is_Some_2 _ _ Hlt) as [tab Htab].
  rewrite Htab in *. rewrite V, combined_seeded by done.
  apply filter_ext. intros j. by rewrite job_matches_after_all.
Qed.

(** The result of [AnaCronTab] when it finds its template and the directory
    lists without an empty name. *)
Lemma AnaCronTab_absorbs w loc s items anajob a :
  Inv s → self_tabs s ≠ [] → os_isdir w loc = true →
  os_listdir w loc = Some items →
  Forall (λ item, item ≠ EmptyString) items →
  template s loc = Some anajob → jobs (searched w s) !! anajob = Some a →
  AnaCronTab.init w loc s =
  Ok [length (tabs s)]
     (deleted anajob (cron a)
        (absorb loc a (length (tabs s)) (List.filter (absorbs w loc) items)
           (searched w s))).
Proof.
  intros I Hs Hd Hl Hne Ht Ha. rewrite AnaCronTab_on by (done || apply I).
  rewrite find_command_searched by done. unfold template in Ht.
  destruct (List.filter _ _) as [|j rest]; [done|]. injection Ht as ->.
  rewrite Hl. unfold bind at 1. rewrite (add_all_eq _ _ _ _ a) by done.
  unfold bind. by rewrite (delete_eq _ a) by by apply absorb_template.
Qed.

(** The result of [AnaCronTab] whenever it returns. *)
Lemma AnaCronTab_returns w loc s new s' :
  Inv s → AnaCronTab.init w loc s = Ok new s' →
  (new = [] ∧ s' = s ∧ (self_tabs s = [] ∨ os_isdir w loc = false)) ∨
  (new = [length (tabs s)] ∧ s' = searched w s ∧ template s loc = None) ∨
  (new = [length (tabs s)] ∧
   ∃ anajob a l, template s loc = Some anajob ∧
     jobs (searched w s) !! anajob = Some a ∧
     s' = deleted anajob (cron a) (absorb loc a (length (tabs s)) l (searched w s))).
Proof.
  intros I.
  destruct (decide (self_tabs s = [])) as [E|E].
  { rewrite AnaCronTab_off by auto. intros [= <- <-]. auto. }
  destruct (os_isdir w loc) eqn:D.
  2: { rewrite AnaCronTab_off by auto. intros [= <- <-]. auto. }
  rewrite AnaCronTab_on by (done || apply I).
  destruct (find_command _ _ _) as [|anajob rest] eqn:F.
  { intros [= <- <-]. right. left. repeat split.
    unfold template. rewrite find_command_searched in F by done. by rewrite F. }
  pose proof F as F'. apply find_command_job in F' as (_&a&Ha&_).
  destruct (os_listdir w loc) as [items|]; [|done].
  unfold bind at 1.
  destruct (add_all_spec w (length (tabs s)) loc anajob a items _ Ha) as [l El].
  destruct (for_each items _ _) as [[] s2|e s2]; simpl in El; subst s2; [|done].
  unfold bind. rewrite (delete_eq _ a) by by apply absorb_template.
  intros [= <- <-]. right. right. split; [done|].
  exists anajob, a, l. repeat split; [|done].
  unfold template. rewrite find_command_searched in F by done. by rewrite F.
Qed.

Lemma filter_seq_below j n k : j < n → filter (λ i, i ≠ j) (seq n k) = seq n k.
Proof.
  revert n. induction k as [|k IH]; intros n Hj; simpl; [done|].
  rewrite filter_cons_True by lia. f_equal. apply IH. lia.
Qed.

Lemma searched_length w s : length (jobs (searched w s)) = length (jobs s).
Proof. unfold searched. by rewrite after_all_length. Qed.

Lemma template_job w s loc anajob :
  Inv s → template s loc = Some anajob →
  ∃ a0 a, jobs s !! anajob = Some a0 ∧ jobs (searched w s) !! anajob = Some a ∧
          defaulted a0 a ∧ contains loc (command a0) = true.
Proof.
  intros I Ht. unfold template in Ht.
  destruct (List.filter _ _) as [|j rest] eqn:F; [done|]. injection Ht as ->.
  assert (anajob ∈ List.filter (job_matches s loc) (combined s)) as Hin
    by (rewrite F; left).
  apply list_elem_of_In, filter_In in Hin as [_ Hm]. unfold job_matches in Hm.
  destruct (jobs s !! anajob) as [a0|] eqn:Ha0; [|done].
  destruct (fr_jobs _ _ (searched_frame w s) _ _ Ha0) as (a&Ha&Hd).
  by exists a0, a.
Qed.

(** C1. [AnaCronTab] over an existing directory, with a job of the merged
    view whose command contains the directory path (the template, the first
    such job): the seeded handle receives exactly one new job for every entry
    that is not '0anacron', does not start with '.' and is executable, in
    directory order, and none for the other entries; each new job has the
    entry's full path as command, the template's user, the comment
    "Anacron " followed by the last dot-separated segment of the path, and
    the template's schedule; the template job is then no longer in the handle
    it was created in. *)
Theorem anacron_absorbs (w : Env) (loc : string) (s : State)
        (items : list string) (anajob : nat) :
  reachable s → self_tabs s ≠ [] → os_isdir w loc = true →
  os_listdir w loc = Some items →
  Forall (λ item, item ≠ EmptyString) items →
  template s loc = Some anajob →
  ∃ s' a0 a news,
    AnaCronTab.init w loc s = Ok [length (tabs s)] s' ∧
    jobs s !! anajob = Some a0 ∧ jobs s' !! anajob = Some a ∧
    slices a = slices a0 ∧ cron a = cron a0 ∧
    tabs s' !! length (tabs s) = Some (mkCronTab (PBool false) None news) ∧
    news = seq (length (jobs s)) (length (List.filter (absorbs w loc) items)) ∧
    length (jobs s') =
      length (jobs s) + length (List.filter (absorbs w loc) items) ∧
    Forall2 (λ j item,
               jobs s' !! j =
               Some (mkJob (os_path_join loc item)
                           ("Anacron " ++ last_segment loc)
                           (user a) (slices a) (length (tabs s))))
            news (List.filter (absorbs w loc) items) ∧
    anajob ∉ tab_crons s' (cron a).
Proof.
  intros R Hs Hd Hl Hne Ht. pose proof (reachable_Inv s R) as I.
  destruct (template_job w s loc anajob I Ht) as (a0&a&Ha0&Ha&Hdef&_).
  set (l := List.filter (absorbs w loc) items).
  exists (deleted anajob (cron a)
            (absorb loc a (length (tabs s)) l (searched w s))), a0, a,
         (seq (length (jobs s)) (length l)).
  apply defaulted_fields in Hdef as (_&_&Hsl&Hcr&_).
  split; [by apply AnaCronTab_absorbs|]. split; [done|].
  split; [simpl; by apply lookup_app_l_Some|].
  split; [done|]. split; [done|]. split.
  { simpl. pose proof (absorb_seed loc a _ l _ (searched_seed w s)) as E.
    simpl in E. rewrite searched_length in *.
    destruct (decide (cron a = length (tabs s))) as [->|Hne'].
    - rewrite list_lookup_alter_eq, E. simpl. unfold set_crons, fresh_view. simpl.
      rewrite filter_seq_below; [done|]. by eapply lookup_lt_Some.
    - by rewrite list_lookup_alter_ne. }
  split; [done|]. split.
  { simpl. by rewrite length_app, length_map, searched_length. }
  split; [|apply deleted_gone].
  apply Forall2_same_length_lookup. split; [by rewrite length_seq|].
  intros i j item Hj Hitem. apply lookup_seq in Hj as [-> _].
  pose proof (absorb_job loc a (length (tabs s)) l (searched w s) i item Hitem) as E.
  by rewrite searched_length in E.
Qed.

Lemma anacron_absorbs_witness :
  (reachable debian_two ∧ self_tabs debian_two ≠ [] ∧
   os_isdir debian "/etc/cron.daily" = true ∧
   template debian_two "/etc/cron.daily" = Some 2) ∧
  ∃ s' a,
    AnaCronTab.init debian "/etc/cron.daily" debian_two =
      Ok [length (tabs debian_two)] s' ∧
    jobs s' !! 2 = Some a ∧ 2 ∉ tab_crons s' (cron a).
Proof.
  assert (reachable debian_two) as R.
  { unfold debian_two, empty_state. do 2 apply reach_add. apply reach_new. }
  assert (self_tabs debian_two ≠ []) as Hs by (vm_compute; discriminate).
  assert (os_isdir debian "/etc/cron.daily" = true) as Hd by reflexivity.
  assert (template debian_two "/etc/cron.daily" = Some 2) as Ht
    by (vm_compute; reflexivity).
  split; [done|].
  destruct (anacron_absorbs debian "/etc/cron.daily" debian_two
              ["0anacron"; ".bak"; "run.sh"; "README"] 2 R Hs Hd eq_refl)
    as (s'&a0&a&news&E&_&Ha&_&_&_&_&_&_&Hgone);
    [repeat constructor; discriminate|exact Ht|].
  by exists s', a.
Defined.

Example anacron_absorbs_debian :
  match AnaCronTab.init debian "/etc/cron.daily" debian_two with
  | Ok new s' =>
      new = [3] ∧ tab_crons s' 3 = [3] ∧ tab_crons s' 2 = [] ∧
      jobs s' !! 3 = Some (mkJob "/etc/cron.daily/run.sh" "Anacron daily"
                                 (PStr "root") at_6_25 3)
  | Raise _ _ => False
  end.
Proof. vm_compute. repeat split. Qed.

(** ** UserSpool *)

(** C4, counterexample: with an empty personal crontab the handle is false
    in [if tab := CronTab(user=True)] and is not appended: zero handles. *)
Lemma spool_empty_crontab : ¬ spool_never_empty.
Proof.
  intros H.
  destruct (H bare "/var/spool/cron/crontabs/" empty_state (or_introl eq_refl))
    as (t&s'&cs&E&_).
  vm_compute in E. discriminate.
Qed.

(** The other way the fallback can yield no handle: the engine fails to open
    the personal crontab, and nothing in [UserSpool] catches that. *)
Example spool_fallback_raises :
  UserSpool.init broken "/var/spool/cron/crontabs/" empty_state
  = Raise EngineError empty_state.
Proof. reflexivity. Qed.

(** ** SystemTab *)

Lemma visible_String c item :
  visible (String c item) = negb (Ascii.eqb c ".").
Proof. unfold visible. by rewrite prefix_dot. Qed.

Lemma allocs_lookup s s' t tab :
  allocs s s' → tabs s !! t = Some tab → tabs s' !! t = Some tab.
Proof. intros (nj&nt&_&T&_&_) H. rewrite T. by apply lookup_app_l_Some. Qed.

Lemma allocs_length s s' : allocs s s' → length (tabs s) ≤ length (tabs s').
Proof. intros (nj&nt&_&T&_&_). rewrite T, length_app. lia. Qed.

Lemma SystemTab_entries_ok w loc items : ∀ self s,
  Forall (λ item, item ≠ EmptyString) items →
  (∀ item, item ∈ items → visible item = true →
           ∃ lines, crontab_of_file w (os_path_join loc item) = inr lines) →
  ∃ s', SystemTab.entries w loc items self s =
          Ok (self ++ seq (length (tabs s)) (length (List.filter visible items))) s' ∧
        allocs s s' ∧
        Forall2 (λ t item, ∃ cs, tabs s' !! t =
                   Some (mkCronTab (PBool false) (Some (os_path_join loc item)) cs))
                (seq (length (tabs s)) (length (List.filter visible items)))
                (List.filter visible items).
Proof.
  induction items as [|item items IH]; intros self s Hne Hopen; simpl.
  - exists s. rewrite app_nil_r. repeat split; [apply allocs_refl|constructor].
  - inversion Hne as [|? ? Hi Hne']; subst.
    destruct item as [|c item]; [done|]. unfold bind at 1. simpl.
    rewrite !visible_String.
    destruct (Ascii.eqb c ".") eqn:Ec; simpl.
    + apply IH; [done|]. intros i Hin. apply Hopen. by right.
    + destruct (Hopen (String c item)) as [lines Hlines]; [by left| |].
      { by rewrite visible_String, Ec. }
      unfold bind at 1.
      rewrite (new_CronTab_Ok _ _ _ _ lines) by done.
      set (s1 := opened _ _ lines s).
      destruct (IH (self ++ [length (tabs s)]) s1 Hne') as (s'&E&A&F).
      { intros i Hin. apply Hopen. by right. }
      assert (length (tabs s1) = S (length (tabs s))) as L.
      { unfold s1. simpl. rewrite length_app. simpl. lia. }
      rewrite L in *. exists s'. split; [by rewrite E, <- app_assoc|].
      split; [eapply allocs_trans; [apply opened_allocs|done]|].
      constructor; [|done].
      eexists. eapply allocs_lookup; [done|]. apply opened_tab.
Qed.

(** ** AnaCronTab without a template *)

(** C7, counterexample: the search reads [tabs.all], and that read gives
    alice's job, which had no user, the user "alice". *)
Lemma search_assigns_users : ¬ search_leaves_jobs.
Proof.
  intros H.
  destruct (H debian "/etc/cron.daily" debian_spool) as (s'&E&_&Hj).
  - unfold debian_spool, empty_state. apply reach_add, reach_new.
  - vm_compute. discriminate.
  - reflexivity.
  - vm_compute. reflexivity.
  - specialize (Hj 0 (mkJob "echo hi" "" PNone every_minute 0) eq_refl).
    vm_compute in E. injection E as <-. vm_compute in Hj. discriminate.
Qed.

(** C7, amended. [AnaCronTab] returns no handle and changes nothing when the
    directory does not exist or the aggregator owns no tab.  When both hold
    and no job of the merged view has the directory path in its command, it
    returns exactly one handle, ownerless, bound to no file and without jobs;
    it creates no job, changes no existing tab (so it deletes no job), and
    keeps every existing job except that the read of the merged view gives a
    user to jobs whose user was [None]. *)
Theorem anacron_without_template (w : Env) (loc : string) (s : State) :
  reachable s →
  (self_tabs s = [] ∨ os_isdir w loc = false →
   AnaCronTab.init w loc s = Ok [] s) ∧
  (self_tabs s ≠ [] → os_isdir w loc = true → template s loc = None →
   ∃ s', AnaCronTab.init w loc s = Ok [length (tabs s)] s' ∧
     tabs s' !! length (tabs s) = Some (mkCronTab (PBool false) None []) ∧
     self_tabs s' = self_tabs s ∧
     length (jobs s') = length (jobs s) ∧
     (∀ t tab, tabs s !! t = Some tab → tabs s' !! t = Some tab) ∧
     (∀ j job, jobs s !! j = Some job →
        ∃ job', jobs s' !! j = Some job' ∧
          (job' = job ∨
           (user job = PNone ∧ ∃ d, d ≠ PNone ∧ job' = set_user d job)))).
Proof.
  intros R. pose proof (reachable_Inv s R) as I. split.
  - apply AnaCronTab_off.
  - intros Hs Hd Ht. exists (searched w s). split.
    + rewrite AnaCronTab_on by (done || apply I).
      rewrite find_command_searched by done. unfold template in Ht.
      by destruct (List.filter _ _).
    + split; [apply searched_seed|]. split; [apply searched_self|].
      split; [apply searched_length|]. split.
      * intros t tab Htab. unfold searched, after_all.
        destruct (c_all (seeded s)); simpl.
        -- by apply lookup_app_l_Some.
        -- by do 2 apply lookup_app_l_Some.
      * apply (fr_jobs _ _ (searched_frame w s)).
Qed.

Lemma anacron_without_template_witness :
  reachable debian_spool ∧
  ∃ s', AnaCronTab.init debian "/etc/cron.daily" debian_spool =
          Ok [length (tabs debian_spool)] s' ∧
        length (jobs s') = length (jobs debian_spool).
Proof.
  assert (reachable debian_spool) as R.
  { unfold debian_spool, empty_state. apply reach_add, reach_new. }
  split; [exact R|].
  destruct (anacron_without_template debian "/etc/cron.daily" debian_spool R)
    as [_ H].
  destruct H as (s'&E&_&_&L&_).
  - vm_compute. discriminate.
  - reflexivity.
  - vm_compute. reflexivity.
  - by exists s'.
Defined.

(** ** Reads of the merged view around an [add] *)

Lemma add_returns w cls loc s s1 :
  CronTabs_add w cls loc s = Ok tt s1 →
  ∃ new s', construct w cls loc s = Ok new s' ∧ s1 = owning new s'.
Proof.
  rewrite add_eq_construct. destruct (construct w cls loc s) as [new s'|]; [|done].
  intros [= <-]. eauto.
Qed.

Lemma tab_crons_owning new s t : tab_crons (owning new s) t = tab_crons s t.
Proof. by destruct new. Qed.

Lemma self_tabs_owning new s : self_tabs (owning new s) = self_tabs s ++ new.
Proof. destruct new; simpl; [by rewrite app_nil_r|done]. Qed.

Lemma map_tab_crons_ext s s' ts :
  (∀ t, t ∈ ts → tab_crons s' t = tab_crons s t) →
  List.map (tab_crons s') ts = List.map (tab_crons s) ts.
Proof.
  intros H. apply map_ext_in. intros t Ht. apply H. by apply list_elem_of_In.
Qed.

Lemma tab_crons_allocs s s' t :
  allocs s s' → t < length (tabs s) → tab_crons s' t = tab_crons s t.
Proof.
  intros (nj&nt&_&T&_&_) H. unfold tab_crons. by rewrite T, lookup_app_l.
Qed.

Lemma tab_crons_searched w s t :
  t < length (tabs s) → tab_crons (searched w s) t = tab_crons s t.
Proof.
  intros H. unfold searched, after_all. destruct (c_all (seeded s)).
  - by apply tab_crons_seeded.
  - rewrite tab_crons_rebuilt; [by apply tab_crons_seeded|].
    simpl. rewrite length_app. lia.
Qed.

Lemma tab_crons_absorb loc a self0 l s t :
  t ≠ self0 → tab_crons (absorb loc a self0 l s) t = tab_crons s t.
Proof. intros H. unfold tab_crons. simpl. by rewrite list_lookup_alter_ne. Qed.

Lemma tab_crons_deleted j t' s t :
  tab_crons (deleted j t' s) t =
  if decide (t = t') then filter (λ i, i ≠ j) (tab_crons s t) else tab_crons s t.
Proof.
  unfold tab_crons, deleted. simpl. destruct (decide (t = t')) as [->|Hne].
  - rewrite list_lookup_alter_eq. by destruct (tabs s !! t').
  - by rewrite list_lookup_alter_ne.
Qed.

Lemma filter_absent (j : nat) (l : list nat) :
  j ∉ l → filter (λ i, i ≠ j) l = l.
Proof.
  induction l as [|x l IH]; [done|]. intros H.
  apply not_elem_of_cons in H as [Hx Hl].
  rewrite filter_cons_True by done. f_equal. by apply IH.
Qed.

Lemma filter_concat (j : nat) (ls : list (list nat)) :
  filter (λ i, i ≠ j) (concat ls) = concat (List.map (filter (λ i, i ≠ j)) ls).
Proof.
  induction ls as [|l ls IH]; simpl; [done|]. by rewrite filter_app, IH.
Qed.

(** The jobs of the tabs owned before an absorption, after it: the template
    is gone, nothing else changed. *)
Lemma old_jobs_absorbed w loc a l s anajob :
  Inv s → template s loc = Some anajob →
  jobs (searched w s) !! anajob = Some a →
  concat (List.map
            (tab_crons (deleted anajob (cron a)
                          (absorb loc a (length (tabs s)) l (searched w s))))
            (self_tabs s)) =
  filter (λ i, i ≠ anajob) (merged_jobs s).
Proof.
  intros I Ht Ha. unfold merged_jobs. rewrite filter_concat, List.map_map.
  f_equal. apply map_ext_in. intros t Hin%list_elem_of_In.
  pose proof (tabs_ok_lt s t (inv_tabs s I) Hin) as Hlt.
  rewrite tab_crons_deleted, tab_crons_absorb, tab_crons_searched by lia.
  destruct (decide (t = cron a)) as [_|Hne]; [done|].
  symmetry. apply filter_absent. intros Hj.
  destruct (inv_owned s I t anajob Hin Hj) as (a0&Ha0&Hc).
  destruct (fr_jobs _ _ (searched_frame w s) _ _ Ha0) as (a'&Ha'&Hd).
  apply defaulted_fields in Hd as (_&_&_&Hcr&_). congruence.
Qed.

(** C3, counterexample: adding the daily anacron directory absorbs the job of
    /etc/crontab that launches it; that job was in the view before the [add]
    and is not in the view after it. *)
Lemma absorbed_template_leaves_view : ¬ later_read_keeps_jobs.
Proof.
  intros H.
  pose (s0 := final (CronTabs.all debian debian_two)).
  pose (s1 := final (CronTabs_add debian cAnaCronTab "/etc/cron.daily" s0)).
  pose (s2 := final (CronTabs.all debian s1)).
  assert (2 ∈ tab_crons s2 5) as Hin.
  { apply (H debian cAnaCronTab "/etc/cron.daily" debian_two s0 s1 s2 3 5).
    - unfold debian_two, empty_state. do 2 apply reach_add. apply reach_new.
    - vm_compute. reflexivity.
    - vm_compute. reflexivity.
    - vm_compute. discriminate.
    - vm_compute. reflexivity.
    - vm_compute. do 2 right. left. }
  vm_compute in Hin.
  repeat (apply elem_of_cons in Hin as [Hin|Hin]; [discriminate|]).
  by apply not_elem_of_nil in Hin.
Qed.

(** C3, amended. Two consecutive reads of [CronTabs.all] return the same
    view and the second changes nothing.  After an [add] that appended at
    least one handle the cache is absent, and the next read shows the jobs of
    the tabs owned before, in insertion order and each tab's jobs in its own
    order, followed by the jobs of the appended tabs.  For [UserSpool] and
    [SystemTab] the jobs of the tabs owned before are the previous ones; for
    [AnaCronTab] they are the previous ones without the template job it
    absorbed. *)
Theorem reads_around_add (w : Env) (cls : TabSource) (loc : string) (s : State) :
  reachable s →
  (∃ v s1, CronTabs.all w s = Ok v s1 ∧ ∀ w', CronTabs.all w' s1 = Ok v s1) ∧
  (∀ s1, CronTabs_add w cls loc s = Ok tt s1 → self_tabs s1 ≠ self_tabs s →
     ∃ new, new ≠ [] ∧ self_tabs s1 = self_tabs s ++ new ∧ c_all s1 = None ∧
       (∀ w', ∃ v s2, CronTabs.all w' s1 = Ok v s2 ∧
          tab_crons s2 v =
            concat (List.map (tab_crons s1) (self_tabs s)) ++
            concat (List.map (tab_crons s1) new)) ∧
       (cls ≠ cAnaCronTab →
          concat (List.map (tab_crons s1) (self_tabs s)) = merged_jobs s) ∧
       (cls = cAnaCronTab →
          concat (List.map (tab_crons s1) (self_tabs s)) =
          match template s loc with
          | Some anajob => filter (λ i, i ≠ anajob) (merged_jobs s)
          | None => merged_jobs s
          end)).
Proof.
  intros R. pose proof (reachable_Inv s R) as I. split.
  { exists (view_of s), (after_all w s). split; [apply all_eq, I|].
    intros w'. apply all_cached, after_all_cache. }
  intros s1 Hadd Hgrow.
  assert (Inv s1) as I1.
  { pose proof (Inv_add w cls loc s I) as H. by rewrite Hadd in H. }
  destruct (add_returns _ _ _ _ _ Hadd) as (new&s'&Hc&->).
  assert (self_tabs s' = self_tabs s) as Hself.
  { destruct cls; simpl in Hc.
    - pose proof (UserSpool_spec w loc s) as H. rewrite Hc in H.
      by destruct H as [(?&?&?&?&?&?) _].
    - pose proof (SystemTab_spec w loc s) as H. rewrite Hc in H.
      by destruct H as [(?&?&?&?&?&?) _].
    - destruct (AnaCronTab_returns _ _ _ _ _ I Hc)
        as [(_&->&_)|[(_&->&_)|(_&j&a&l&_&_&->)]];
        [done|apply searched_self|simpl; apply searched_self]. }
  exists new. rewrite self_tabs_owning, Hself in *.
  assert (new ≠ []) as Hnew.
  { intros ->. apply Hgrow. by rewrite app_nil_r. }
  split; [done|]. split; [done|]. split; [by destruct new|]. split.
  { intros w'. exists (view_of (owning new s')), (after_all w' (owning new s')).
    split; [apply all_eq, I1|].
    rewrite after_all_view. unfold combined.
    replace (c_all (owning new s')) with (@None nat) by by destruct new.
    unfold merged_jobs. by rewrite self_tabs_owning, Hself, List.map_app, concat_app. }
  assert (∀ t, t ∈ self_tabs s → t < length (tabs s)) as Hlt.
  { intros t. apply tabs_ok_lt, I. }
  split.
  - intros Hcls. unfold merged_jobs. f_equal. apply map_tab_crons_ext.
    intros t Ht. rewrite tab_crons_owning.
    destruct cls; simpl in Hc; [| |done].
    + pose proof (UserSpool_spec w loc s) as H. rewrite Hc in H.
      destruct H as [A _]. apply tab_crons_allocs; auto.
    + pose proof (SystemTab_spec w loc s) as H. rewrite Hc in H.
      destruct H as [A _]. apply tab_crons_allocs; auto.
  - intros ->. simpl in Hc.
    destruct (AnaCronTab_returns _ _ _ _ _ I Hc)
      as [(->&_&_)|[(_&->&->)|(_&j&a&l&Htj&Ha&->)]]; [done| |].
    + unfold merged_jobs. f_equal. apply map_tab_crons_ext.
      intros t Ht. rewrite tab_crons_owning. apply tab_crons_searched; auto.
    + rewrite Htj. rewrite <- (old_jobs_absorbed w loc a l s j I) by done.
      f_equal. apply map_tab_crons_ext. intros t Ht. by rewrite tab_crons_owning.
Qed.

Lemma reads_around_add_witness :
  (reachable debian_spool ∧
   CronTabs_add debian cSystemTab "/etc/crontab" debian_spool = Ok tt debian_two ∧
   self_tabs debian_two ≠ self_tabs debian_spool) ∧
  (∃ v s1, CronTabs.all debian debian_spool = Ok v s1 ∧
           ∀ w', CronTabs.all w' s1 = Ok v s1) ∧
  ∃ new, new ≠ [] ∧ self_tabs debian_two = self_tabs debian_spool ++ new ∧
         c_all debian_two = None ∧
         concat (List.map (tab_crons debian_two) (self_tabs debian_spool)) =
           merged_jobs debian_spool.
Proof.
  assert (reachable debian_spool) as R.
  { unfold debian_spool, empty_state. apply reach_add, reach_new. }
  assert (CronTabs_add debian cSystemTab "/etc/crontab" debian_spool =
          Ok tt debian_two) as E by (vm_compute; reflexivity).
  assert (self_tabs debian_two ≠ self_tabs debian_spool) as G
    by (vm_compute; discriminate).
  split; [done|].
  destruct (reads_around_add debian cSystemTab "/etc/crontab" debian_spool R)
    as [H1 H2].
  split; [exact H1|].
  destruct (H2 debian_two E G) as (new&Hn&Hs&Hc&_&Hold&_).
  exists new. split; [done|]. split; [done|]. split; [done|].
  by apply Hold.
Defined.

Example read_after_system_add :
  match CronTabs_add debian cSystemTab "/etc/crontab" debian_spool with
  | Ok _ s1 =>
      match CronTabs.all debian s1 with
      | Ok v s2 => merged_jobs debian_spool = [0; 1] ∧ tab_crons s2 v = [0; 1; 2]
      | Raise _ _ => False
      end
  | Raise _ _ => False
  end.
Proof. vm_compute. done. Qed.

(** ** A directory that exists but cannot be listed *)

(** C8, the code at the failing input.  [UserSpool] turns the failed listing
    into an empty one, [SystemTab] and [AnaCronTab] let the [OSError] out, and
    [CronTabs.__init__] stops there: the locations after /etc/cron.d/ are
    never processed, and the call [CronTabs()] raises. *)
Theorem unreadable_directory_aborts :
  UserSpool.listdir locked "/etc/cron.d/" = [] ∧
  SystemTab.init locked "/etc/cron.d/" empty_state = Raise OSError empty_state ∧
  (∃ s', AnaCronTab.init locked "/etc/cron.daily" debian_two = Raise OSError s') ∧
  (∃ s', CronTabs_init locked empty_state = Raise OSError s' ∧
         self_tabs s' = [0; 1; 2]) ∧
  fst (CronTabs_call locked fresh_process) = inl OSError.
Proof.
  split; [reflexivity|]. split; [reflexivity|].
  split; [eexists; vm_compute; reflexivity|].
  split; [eexists; vm_compute; split; reflexivity|].
  vm_compute. reflexivity.
Qed.

(** In general: a directory that does not list aborts [SystemTab]. *)
Lemma SystemTab_unreadable w loc s :
  os_isdir w loc = true → os_listdir w loc = None →
  SystemTab.init w loc s = Raise OSError s.
Proof. intros Hd Hl. unfold SystemTab.init. by rewrite Hd, Hl. Qed.

(** A missing directory, on the other hand, raises in none of the three. *)
Lemma missing_directory_is_empty w loc s :
  os_isdir w loc = false → os_isfile w loc = false → os_listdir w loc = None →
  UserSpool.listdir w loc = [] ∧
  SystemTab.init w loc s = Ok [] s ∧
  AnaCronTab.init w loc s = Ok [] s.
Proof.
  intros Hd Hf Hl. split; [unfold UserSpool.listdir; by rewrite Hl|].
  split; [unfold SystemTab.init; by rewrite Hd, Hf|].
  apply AnaCronTab_off. by right.
Qed.

(** ** The singleton *)

(** The half of the singleton discipline that holds: once the instance owns
    a tab, [CronTabs()] returns it and does nothing. *)
Lemma singleton_reused w p i inst t ts :
  cls_self p = Some i → instances p !! i = Some inst → i_tabs inst = t :: ts →
  CronTabs_call w p = (inr i, p).
Proof.
  intros Hs Hi Ht. unfold CronTabs_call, new_CronTabs, not_self.
  rewrite Hs, Hi, Ht. unfold CronTabs_init, enter, bind, get. rewrite Hi. simpl.
  rewrite Ht. simpl. f_equal. unfold leave. simpl.
  destruct p as [js tbs insts cs]. simpl in *. f_equal.
  rewrite <- Ht. destruct inst. by apply list_insert_id.
Qed.

(** C9, the code at the failing input.  On a system where discovery finds
    nothing (no spool entry, an empty personal crontab, no system tab) the
    first [CronTabs()] leaves an empty instance in [_self]; [not cls._self] is
    then true again, so the second call creates another object and runs the
    discovery pass a second time (it opens the personal crontab again). *)
Theorem empty_singleton_is_replaced :
  let r1 := CronTabs_call bare fresh_process in
  let r2 := CronTabs_call bare (snd r1) in
  fst r1 = inr 0 ∧ fst r2 = inr 1 ∧
  cls_self (snd r1) = Some 0 ∧ cls_self (snd r2) = Some 1 ∧
  instances (snd r1) !! 0 = Some (mkInstance [] None) ∧
  length (p_tabs (snd r1)) = 1 ∧ length (p_tabs (snd r2)) = 2.
Proof. vm_compute. repeat split. Qed.

(** The same happens, whatever the truth value of a tab, when the first call
    raised before it owned a tab: the empty instance it left in [_self] is
    replaced by the next call. *)
Example raised_singleton_is_replaced :
  let r1 := CronTabs_call broken fresh_process in
  let r2 := CronTabs_call broken (snd r1) in
  fst r1 = inl EngineError ∧ cls_self (snd r1) = Some 0 ∧
  fst r2 = inl EngineError ∧ cls_self (snd r2) = Some 1.
Proof. vm_compute. repeat split. Qed.

(** * Further properties of crontabs.py *)

(** ** The comment of an absorbed job: [loc.split('.')[-1]] *)

Lemma split_not_nil c s : split c s ≠ [].
Proof.
  destruct s as [|a s]; simpl; [done|].
  destruct (Ascii.eqb a c); [done|]. by destruct (split c s).
Qed.

Lemma split_no_sep c s : has_char c s = false → split c s = [s].
Proof.
  induction s as [|a s IH]; simpl; [done|].
  intros [Ha Hs]%orb_false_elim. rewrite Ha, IH by done. done.
Qed.

Lemma last_cons_cons {A} (x : A) l d : l ≠ [] → List.last (x :: l) d = List.last l d.
Proof. by destruct l. Qed.

Lemma split_after_sep c b d : ∀ a,
  ∃ h t, split c (a ++ String c b)%string = h :: t ∧ t ≠ [] ∧
         List.last t d = List.last (split c b) d.
Proof.
  induction a as [|x a (h&t&E&Hne&Hl)]; simpl.
  - rewrite Ascii.eqb_refl. eexists _, _. split; [done|].
    split; [apply split_not_nil|done].
  - rewrite E. destruct (Ascii.eqb x c).
    + eexists _, _. split; [done|]. split; [done|].
      by rewrite last_cons_cons.
    + eexists _, _. split; [done|]. by split.
Qed.

(** X1. The comment suffix [loc.split('.')[-1]]: a path without a dot is
    taken whole, and otherwise the suffix is what follows the last dot of the
    path, wherever that dot is (also in a parent directory). *)
Theorem last_segment_after_dot (loc : string) :
  (has_char "." loc = false → last_segment loc = loc) ∧
  (∀ a b, loc = (a ++ String "." b)%string → has_char "." b = false →
          last_segment loc = b) ∧
  has_char "." (last_segment loc) = false.
Proof.
  unfold last_segment. split; [|split].
  - intros H. by rewrite split_no_sep.
  - intros a b -> Hb.
    destruct (split_after_sep "." b EmptyString a) as (h&t&E&Hne&Hl).
    rewrite E, last_cons_cons, Hl, split_no_sep by done. done.
  - induction loc as [|x loc IH]; simpl; [done|].
    destruct (Ascii.eqb x ".") eqn:Ex.
    + rewrite last_cons_cons by apply split_not_nil. exact IH.
    + destruct (split "." loc) as [|h [|h' t]] eqn:E; simpl in *.
      * by rewrite Ex.
      * by rewrite Ex, IH.
      * exact IH.
Qed.

Lemma last_segment_after_dot_witness :
  has_char "." "d/extra" = false ∧
  last_segment "/etc/cron.d/extra" = "d/extra".
Proof.
  split; [reflexivity|].
  exact (proj1 (proj2 (last_segment_after_dot "/etc/cron.d/extra"))
           "/etc/cron" "d/extra" eq_refl eq_refl).
Defined.

(** ** The singleton, once it owns a tab *)

(** X2. Once the instance in [_self] owns at least one tab, every further
    call [CronTabs()], in whatever environment, returns that same object and
    leaves the whole process as it is: no new object, no discovery pass. *)
Theorem singleton_is_stable (ws : list Env) (p : Process) (i : nat)
        (inst : Instance) :
  cls_self p = Some i → instances p !! i = Some inst → i_tabs inst ≠ [] →
  calls ws p = (List.map (fun _ => inr i) ws, p).
Proof.
  intros Hs Hi Ht. induction ws as [|w ws IH]; simpl; [done|].
  destruct (i_tabs inst) as [|t ts] eqn:E; [done|].
  rewrite (singleton_reused w p i inst t ts) by done. by rewrite IH.
Qed.

Lemma singleton_is_stable_witness :
  let p := snd (CronTabs_call debian fresh_process) in
  cls_self p = Some 0 ∧
  calls [bare; locked; debian] p = ([inr 0; inr 0; inr 0], p).
Proof.
  split; [reflexivity|].
  eapply (singleton_is_stable [bare; locked; debian]).
  - reflexivity.
  - vm_compute. reflexivity.
  - discriminate.
Defined.

(** ** Handles a source returns are new and distinct *)

Lemma new_CronTab_opened w u f s t s' :
  new_CronTab w u f s = Ok t s' →
  t = length (tabs s) ∧ ∃ lines, read w u f = inr lines ∧ s' = opened u f lines s.
Proof.
  unfold new_CronTab. destruct (read w u f) as [e|lines]; [done|].
  intros [= <- <-]. eauto.
Qed.

Lemma handles_new_nil Q n s : handles_new Q n s [].
Proof. split; [constructor|]. intros t H. by apply not_elem_of_nil in H. Qed.

Lemma handles_new_allocs Q n s s' new :
  handles_new Q n s new → allocs s s' → handles_new Q n s' new.
Proof.
  intros [Hd H] A. split; [done|]. intros t Ht.
  destruct (H t Ht) as (Hn&tab&Htab&Hc&HQ). split; [done|].
  exists tab. split; [by eapply allocs_lookup|done].
Qed.

Lemma handles_new_below Q n s new t :
  handles_new Q n s new → t ∈ new → t < length (tabs s).
Proof.
  intros [_ H] Ht. destruct (H t Ht) as (_&tab&Htab&_). by eapply lookup_lt_Some.
Qed.

(** Appending the handle just opened. *)
Lemma handles_new_snoc (Q : CronTab → Prop) n s self u f lines :
  handles_new Q n s self → n ≤ length (tabs s) →
  Q (mkCronTab u f (seq (length (jobs s)) (length lines))) →
  handles_new Q n (opened u f lines s) (self ++ [length (tabs s)]).
Proof.
  intros H Hn HQ.
  pose proof (handles_new_allocs Q n s _ self H (opened_allocs u f lines s)) as [Hd H'].
  split.
  - apply NoDup_app. split; [done|]. split; [|apply NoDup_singleton].
    intros t Ht ->%list_elem_of_singleton.
    apply (handles_new_below Q n s self) in Ht; [lia|done].
  - intros t [Ht| ->%list_elem_of_singleton]%elem_of_app; [by apply H'|].
    split; [done|]. eexists. split; [apply opened_tab|].
    split; [apply NoDup_seq|done].
Qed.

Lemma handles_new_weaken (Q Q' : CronTab → Prop) n s new :
  (∀ tab, Q tab → Q' tab) → handles_new Q n s new → handles_new Q' n s new.
Proof.
  intros HQ [Hd H]. split; [done|]. intros t Ht.
  destruct (H t Ht) as (Hn&tab&Htab&Hc&Ht'). eauto 10.
Qed.

Lemma entry_handle_mono w loc names names' tab :
  (∀ n, n ∈ names → n ∈ names') →
  entry_handle w loc names tab → entry_handle w loc names' tab.
Proof. intros H (Hb&n&uid&Hn&Hs&Hc). split; [done|]. exists n, uid. auto. Qed.

(** The handle [generate] opens for an entry, and its classification. *)
Lemma generate_opened w loc name s t s' :
  UserSpool.generate w loc name s = Ok t s' →
  t = length (tabs s) ∧
  ∃ uid u f lines,
    os_stat_uid w (os_path_join loc name) = Some uid ∧
    s' = opened u f lines s ∧
    ((getpwuid w uid = Some name ∧ u = PStr name ∧ f = None) ∨
     (getpwuid w uid ≠ Some name ∧ u = PNone ∧
      f = Some (os_path_join loc name))).
Proof.
  unfold UserSpool.generate, UserSpool.get_owner, bind.
  destruct (os_stat_uid w _) as [uid|]; [|done]. simpl.
  destruct (negb (UserSpool.same_owner name (getpwuid w uid))) eqn:Eo;
    intros (->&lines&_&->)%new_CronTab_opened; (split; [done|]);
    eexists uid, _, _, lines; (split; [done|]); (split; [done|]).
  - right. split; [|done]. intros Ho. rewrite Ho in Eo. simpl in Eo.
    by rewrite String.eqb_refl in Eo.
  - left. split; [|done]. apply negb_false_iff in Eo.
    destruct (getpwuid w uid) as [o|]; simpl in Eo; [|done].
    by apply String.eqb_eq in Eo as <-.
Qed.

(** The loop of [UserSpool] over a part [names] of the listing [every]. *)
Lemma UserSpool_entries_new w loc n every names : ∀ self s new s',
  (∀ x, x ∈ names → x ∈ every) →
  handles_new (entry_handle w loc every) n s self → n ≤ length (tabs s) →
  UserSpool.entries w loc names self s = Ok new s' →
  allocs s s' ∧ handles_new (entry_handle w loc every) n s' new.
Proof.
  induction names as [|name names IH]; intros self s new s' Hin H Hn; simpl.
  - intros [= <- <-]. split; [apply allocs_refl|done].
  - unfold bind at 1.
    destruct (UserSpool.generate w loc name s) as [t s1|e s1] eqn:G; [|done].
    apply generate_opened in G as (->&uid&u&f&lines&Hstat&->&Hcls).
    unfold bind at 1. unfold append_if_true at 1. rewrite opened_tab.
    set (tab := mkCronTab u f _). intros Hrest.
    assert (allocs s (opened u f lines s)) as A1 by apply opened_allocs.
    assert (n ≤ length (tabs (opened u f lines s))) as Hn'.
    { apply allocs_length in A1. lia. }
    assert (∀ x, x ∈ names → x ∈ every) as Hin' by (intros x Hx; apply Hin; by right).
    destruct (tab_bool w tab) eqn:Hb.
    + destruct (IH _ _ _ _ Hin'
                  (handles_new_snoc _ n s self u f lines H Hn
                     ltac:(split; [exact Hb|];
                           exists name, uid; split; [apply Hin; left|];
                           split; [done|];
                           destruct Hcls as [(?&->&->)|(?&->&->)]; auto))
                  Hn' Hrest) as [A2 H2].
      split; [by eapply allocs_trans|done].
    + destruct (IH _ _ _ _ Hin' (handles_new_allocs _ n s _ self H A1) Hn' Hrest)
        as [A2 H2].
      split; [by eapply allocs_trans|done].
Qed.

Lemma UserSpool_init_new w loc s new s' :
  UserSpool.init w loc s = Ok new s' →
  allocs s s' ∧
  (handles_new (entry_handle w loc (UserSpool.listdir w loc))
               (length (tabs s)) s' new ∨
   handles_new (own_handle w) (length (tabs s)) s' new ∧ ∃ t, new = [t]).
Proof.
  unfold UserSpool.init. unfold bind at 1.
  destruct (UserSpool.entries w loc _ [] s) as [self s1|e s1] eqn:E; [|done].
  apply (UserSpool_entries_new w loc (length (tabs s))
           (UserSpool.listdir w loc)) in E as [A H];
    [|done|apply handles_new_nil|done].
  destruct self as [|t self]; [|intros [= <- <-]; auto].
  unfold bind.
  destruct (new_CronTab w (PBool true) None s1) as [t s2|e s2] eqn:N; [|done].
  apply new_CronTab_opened in N as (->&lines&_&->).
  unfold append_if_true. rewrite opened_tab. intros [= <- <-].
  split; [eapply allocs_trans; [done|apply opened_allocs]|].
  destruct (tab_bool w _) eqn:Hb.
  - right. split; [|eauto].
    apply (handles_new_snoc (own_handle w) _ s1 [] (PBool true) None lines).
    + apply handles_new_nil.
    + by apply allocs_length.
    + by split.
  - left. apply handles_new_nil.
Qed.

(** X3. Whenever [UserSpool] returns, its handles are distinct objects
    created by this call and every one of them is true.  Either all of them
    were made for entries of the listing, each bound to the user the entry is
    named after when that account owns the file and to the file path
    otherwise; or the result is the single fallback handle of the invoking
    user. *)
Theorem spool_handles (w : Env) (loc : string) (s s' : State) (new : list nat) :
  UserSpool.init w loc s = Ok new s' →
  NoDup new ∧ (∀ t, t ∈ new → length (tabs s) ≤ t) ∧
  ((∀ t, t ∈ new →
      ∃ tab, tabs s' !! t = Some tab ∧
             entry_handle w loc (UserSpool.listdir w loc) tab) ∨
   (∃ t tab, new = [t] ∧ tabs s' !! t = Some tab ∧ own_handle w tab)).
Proof.
  intros H. apply UserSpool_init_new in H as [_ [[Hd H]|[[Hd H] [t ->]]]].
  - split; [done|]. split; [intros t Ht; by apply H|].
    left. intros t Ht. destruct (H t Ht) as (_&tab&Htab&_&HQ). eauto.
  - split; [done|]. split; [intros t' Ht; by apply H|].
    right. destruct (H t) as (_&tab&Htab&_&HQ); [left|]. eauto.
Qed.

Lemma spool_handles_witness :
  ∃ s', UserSpool.init debian "/var/spool/cron/crontabs/" empty_state
          = Ok [0; 1] s' ∧
        NoDup [0; 1] ∧
        ∀ t, t ∈ [0; 1] →
          ∃ tab, tabs s' !! t = Some tab ∧
                 entry_handle debian "/var/spool/cron/crontabs/"
                   (UserSpool.listdir debian "/var/spool/cron/crontabs/") tab.
Proof.
  eexists. split; [vm_compute; reflexivity|].
  match goal with |- context [tabs ?s] =>
    destruct (spool_handles debian "/var/spool/cron/crontabs/" empty_state s [0; 1])
      as (Hd&_&[H|(t&tab&[=]&_)]) end; [vm_compute; reflexivity|].
  by split.
Defined.

(** ** An entry that cannot be examined or opened *)

Lemma UserSpool_entries_stat w loc n names : ∀ self s,
  n ∈ names → os_stat_uid w (os_path_join loc n) = None →
  ∃ e s', UserSpool.entries w loc names self s = Raise e s'.
Proof.
  induction names as [|name names IH]; intros self s Hin Hstat.
  { by apply not_elem_of_nil in Hin. }
  simpl. unfold bind at 1.
  destruct (UserSpool.generate w loc name s) as [t s1|e s1] eqn:G; [|eauto].
  apply elem_of_cons in Hin as [->|Hin].
  { apply generate_opened in G as (_&uid&_&_&_&Hs&_). congruence. }
  unfold bind at 1.
  destruct (append_if_true_spec w self t s1) as (self'&->&_).
  by apply IH.
Qed.

(** X4. [get_owner] catches [KeyError] only: when one entry of the spool
    listing cannot be stat'ed, [UserSpool] raises, and so returns no handle at
    all, not even for the entries listed before it, and [CronTabs.add]
    appends nothing. *)
Theorem spool_entry_without_stat (w : Env) (loc n : string) (s : State) :
  n ∈ UserSpool.listdir w loc →
  os_stat_uid w (os_path_join loc n) = None →
  (∃ s', UserSpool.get_owner w (os_path_join loc n) s = Raise OSError s') ∧
  (∃ e s', UserSpool.init w loc s = Raise e s') ∧
  (∃ e s', CronTabs_add w cUserSpool loc s = Raise e s' ∧
           self_tabs s' = self_tabs s ∧ c_all s' = c_all s).
Proof.
  intros Hin Hstat.
  destruct (UserSpool_entries_stat w loc n _ [] s Hin Hstat) as (e&s'&E).
  assert (UserSpool.init w loc s = Raise e s') as Hinit.
  { unfold UserSpool.init, bind. by rewrite E. }
  split; [|split].
  - unfold UserSpool.get_owner. rewrite Hstat. by eexists.
  - eauto.
  - exists e, s'. rewrite add_eq_construct. simpl. rewrite Hinit.
    split; [done|].
    pose proof (UserSpool_spec w loc s) as A. rewrite Hinit in A.
    by destruct A as (?&?&?&?&?&?).
Qed.

Lemma spool_entry_without_stat_witness :
  "gone" ∈ UserSpool.listdir debian_stale "/var/spool/cron/crontabs/" ∧
  os_stat_uid debian_stale "/var/spool/cron/crontabs/gone" = None ∧
  ∃ e s', UserSpool.init debian_stale "/var/spool/cron/crontabs/" empty_state
          = Raise e s'.
Proof.
  assert ("gone" ∈ UserSpool.listdir debian_stale "/var/spool/cron/crontabs/")
    as Hin by (right; left).
  split; [exact Hin|]. split; [reflexivity|].
  exact (proj1 (proj2 (spool_entry_without_stat debian_stale
                         "/var/spool/cron/crontabs/" "gone" empty_state
                         Hin eq_refl))).
Defined.

Lemma SystemTab_entries_fail w loc item e items : ∀ self s,
  item ∈ items → visible item = true →
  crontab_of_file w (os_path_join loc item) = inl e →
  ∃ e' s', SystemTab.entries w loc items self s = Raise e' s'.
Proof.
  induction items as [|x items IH]; intros self s Hin Hv Hf.
  { by apply not_elem_of_nil in Hin. }
  simpl. unfold bind at 1. destruct x as [|c x]; simpl; [by eexists _, _|].
  apply elem_of_cons in Hin as [->|Hin].
  - rewrite visible_String in Hv. apply negb_true_iff in Hv. rewrite Hv.
    unfold bind. rewrite (new_CronTab_Raise _ _ _ _ e) by done. eauto.
  - destruct (Ascii.eqb c "."); [by apply IH|].
    unfold bind at 1. destruct (new_CronTab _ _ _ _) as [t s1|e1 s1]; [|eauto].
    by apply IH.
Qed.

(** X5. [SystemTab] opens the entries of a directory with no handler around
    the constructor: when one visible entry cannot be opened, [SystemTab]
    raises and so returns no handle for the directory at all, and
    [CronTabs.add] appends nothing. *)
Theorem system_entry_unopened (w : Env) (loc item : string) (e : exn)
        (items : list string) (s : State) :
  os_isdir w loc = true → os_listdir w loc = Some items →
  item ∈ items → visible item = true →
  crontab_of_file w (os_path_join loc item) = inl e →
  (∃ e' s', SystemTab.init w loc s = Raise e' s') ∧
  (∃ e' s', CronTabs_add w cSystemTab loc s = Raise e' s' ∧
            self_tabs s' = self_tabs s ∧ c_all s' = c_all s).
Proof.
  intros Hd Hl Hin Hv Hf.
  destruct (SystemTab_entries_fail w loc item e items [] s Hin Hv Hf)
    as (e'&s'&E).
  assert (SystemTab.init w loc s = Raise e' s') as Hinit.
  { unfold SystemTab.init. by rewrite Hd, Hl. }
  split; [eauto|]. exists e', s'. rewrite add_eq_construct. simpl.
  rewrite Hinit. split; [done|].
  pose proof (SystemTab_spec w loc s) as A. rewrite Hinit in A.
  by destruct A as (?&?&?&?&?&?).
Qed.

Lemma system_entry_unopened_witness :
  (os_isdir debian_subdir "/etc/cron.d/" = true ∧
   os_listdir debian_subdir "/etc/cron.d/" = Some ["job1"; "sub"] ∧
   crontab_of_file debian_subdir "/etc/cron.d/sub" = inl EngineError) ∧
  ∃ e' s', SystemTab.init debian_subdir "/etc/cron.d/" empty_state = Raise e' s'.
Proof.
  split; [done|].
  refine (proj1 (system_entry_unopened debian_subdir "/etc/cron.d/" "sub"
                   EngineError ["job1"; "sub"] empty_state
                   eq_refl eq_refl _ eq_refl eq_refl)).
  right. left.
Defined.

Lemma SystemTab_entries_new w loc n items : ∀ self s new s',
  handles_new (λ _, True) n s self → n ≤ length (tabs s) →
  SystemTab.entries w loc items self s = Ok new s' →
  handles_new (λ _, True) n s' new.
Proof.
  induction items as [|x items IH]; intros self s new s' H Hn; simpl.
  - by intros [= <- <-].
  - unfold bind at 1. destruct x as [|c x]; simpl; [done|].
    destruct (Ascii.eqb c "."); [by apply IH|].
    unfold bind at 1.
    destruct (new_CronTab _ _ _ _) as [t s1|e1 s1] eqn:N; [|done].
    apply new_CronTab_opened in N as (->&lines&_&->).
    apply IH; [by apply handles_new_snoc|].
    pose proof (allocs_length _ _ (opened_allocs (PBool false)
      (Some (os_path_join loc (String c x))) lines s)). lia.
Qed.

Lemma SystemTab_new w loc s new s' :
  SystemTab.init w loc s = Ok new s' →
  handles_new (λ _, True) (length (tabs s)) s' new.
Proof.
  unfold SystemTab.init. destruct (os_isdir w loc).
  - destruct (os_listdir w loc) as [items|]; [|done].
    apply SystemTab_entries_new; [apply handles_new_nil|done].
  - destruct (os_isfile w loc).
    + unfold bind. destruct (new_CronTab _ _ _ _) as [t s1|e1 s1] eqn:N; [|done].
      apply new_CronTab_opened in N as (->&lines&_&->). intros [= <- <-].
      by apply (handles_new_snoc (λ _, True) _ s [] (PBool false) (Some loc) lines);
        [apply handles_new_nil|..].
    + intros [= <- <-]. apply handles_new_nil.
Qed.

(** ** The states [AnaCronTab] can leave *)

(** When [AnaCronTab] raises it had found its template, and it stopped
    before deleting it. *)
Lemma AnaCronTab_raises w loc s e s' :
  Inv s → AnaCronTab.init w loc s = Raise e s' →
  ∃ anajob a l, template s loc = Some anajob ∧
    jobs (searched w s) !! anajob = Some a ∧
    s' = absorb loc a (length (tabs s)) l (searched w s).
Proof.
  intros I.
  destruct (decide (self_tabs s = [])) as [E|E].
  { by rewrite AnaCronTab_off by auto. }
  destruct (os_isdir w loc) eqn:D.
  2: { by rewrite AnaCronTab_off by auto. }
  rewrite AnaCronTab_on by (done || apply I).
  destruct (find_command _ _ _) as [|anajob rest] eqn:F; [done|].
  pose proof F as F'. apply find_command_job in F' as (_&a&Ha&_).
  assert (template s loc = Some anajob) as Ht.
  { unfold template. rewrite find_command_searched in F by done. by rewrite F. }
  destruct (os_listdir w loc) as [items|].
  2: { intros [= <- <-]. exists anajob, a, []. by rewrite absorb_nil. }
  unfold bind at 1.
  destruct (add_all_spec w (length (tabs s)) loc anajob a items _ Ha) as [l El].
  destruct (for_each items _ _) as [[] s2|e2 s2]; simpl in El; subst s2.
  - unfold bind. by rewrite (delete_eq _ a) by by apply absorb_template.
  - intros [= <- <-]. by exists anajob, a, l.
Qed.

Lemma AnaCronTab_new w loc s new s' :
  Inv s → AnaCronTab.init w loc s = Ok new s' →
  handles_new (λ _, True) (length (tabs s)) s' new.
Proof.
  intros I H.
  destruct (AnaCronTab_returns _ _ _ _ _ I H)
    as [(->&_&_)|[(->&->&_)|(->&j&a&l&_&Ha&->)]].
  - apply handles_new_nil.
  - split; [apply NoDup_singleton|]. intros t ->%list_elem_of_singleton.
    split; [done|]. eexists. split; [apply searched_seed|].
    split; [constructor|done].
  - split; [apply NoDup_singleton|]. intros t ->%list_elem_of_singleton.
    split; [done|].
    pose proof (absorb_seed loc a _ l _ (searched_seed w s)) as E.
    simpl. destruct (decide (cron a = length (tabs s))) as [->|Hne].
    + rewrite list_lookup_alter_eq. simpl in E. rewrite E. simpl.
      eexists. split; [done|]. split; [|done]. simpl.
      apply NoDup_filter, NoDup_seq.
    + rewrite list_lookup_alter_ne by done. simpl in E. rewrite E.
      eexists. split; [done|]. split; [apply NoDup_seq|done].
Qed.

Lemma construct_new w cls loc s new s' :
  Inv s → construct w cls loc s = Ok new s' →
  handles_new (λ _, True) (length (tabs s)) s' new.
Proof.
  intros I. destruct cls; simpl.
  - intros H. apply UserSpool_init_new in H as [_ [H|[H _]]];
      by eapply handles_new_weaken.
  - apply SystemTab_new.
  - by apply AnaCronTab_new.
Qed.

(** ** The second invariant: the cache is current, nothing is listed twice *)

Lemma merged_jobs_ext s s' :
  self_tabs s' = self_tabs s →
  (∀ t, t ∈ self_tabs s → tab_crons s' t = tab_crons s t) →
  merged_jobs s' = merged_jobs s.
Proof.
  intros Hs H. unfold merged_jobs. rewrite Hs. f_equal.
  by apply map_tab_crons_ext.
Qed.

(** A step that leaves alone the aggregator's list, its cache, the owned
    tabs and the cached view keeps the second invariant. *)
Lemma Tidy_same s s' :
  Tidy s → self_tabs s' = self_tabs s → c_all s' = c_all s →
  (∀ t, t ∈ self_tabs s → tab_crons s' t = tab_crons s t) →
  (∀ v, c_all s = Some v → tab_crons s' v = tab_crons s v) →
  Tidy s'.
Proof.
  intros [J1 J2 J3] Hs Hc Ht Hv. split.
  - intros v C. rewrite Hc in C. rewrite (Hv v C), (J1 v C).
    symmetry. by apply merged_jobs_ext.
  - by rewrite Hs.
  - intros t Hin. rewrite Hs in Hin. rewrite Ht by done. by apply J3.
Qed.

Lemma Tidy_allocs s s' : Inv s → Tidy s → allocs s s' → Tidy s'.
Proof.
  intros I T A. pose proof A as (nj&nt&_&_&Hs&Hc).
  apply (Tidy_same s); try done.
  - intros t Ht. apply tab_crons_allocs; [done|]. by apply tabs_ok_lt; [apply I|].
  - intros v C. apply tab_crons_allocs; [done|]. by apply (inv_view s I).
Qed.

Lemma Tidy_after_all w s : Inv s → Tidy s → Tidy (after_all w s).
Proof.
  intros I T. unfold after_all. destruct (c_all s) eqn:C; [done|].
  destruct T as [J1 J2 J3]. split.
  - intros v [= <-]. by rewrite view_rebuilt, merged_jobs_rebuilt by apply I.
  - done.
  - intros t Ht. rewrite tab_crons_rebuilt; [by apply J3|].
    by apply tabs_ok_lt; [apply I|].
Qed.

Lemma Tidy_searched w s : Inv s → Tidy s → Tidy (searched w s).
Proof.
  intros I T. apply Tidy_after_all.
  - eapply Inv_allocs; [done|apply seeded_allocs].
  - eapply Tidy_allocs; [done..|apply seeded_allocs].
Qed.

Lemma Tidy_absorb loc a self0 l s :
  Tidy s → self0 ∉ self_tabs s → c_all s ≠ Some self0 →
  Tidy (absorb loc a self0 l s).
Proof.
  intros T H1 H2. apply (Tidy_same s); try done.
  - intros t Ht. apply tab_crons_absorb. by intros ->.
  - intros v C. apply tab_crons_absorb. congruence.
Qed.

(** The second invariant after [add] owned the handles a source returned. *)
Lemma Tidy_owning (Q : CronTab → Prop) n new s :
  (∀ t, t ∈ self_tabs s → t < n) → NoDup (self_tabs s) →
  (∀ t, t ∈ self_tabs s → NoDup (tab_crons s t)) →
  handles_new Q n s new → (new = [] → Tidy s) →
  Tidy (owning new s).
Proof.
  intros Hlt Hd Hj [Hn H] Hnil. destruct new as [|x new]; [by apply Hnil|].
  set (new' := x :: new) in *. split; simpl.
  - done.
  - apply NoDup_app. split; [done|]. split; [|done].
    intros t Ht Ht'. apply Hlt in Ht. destruct (H t Ht') as [? _]. lia.
  - intros t [Ht|Ht]%elem_of_app.
    + by apply Hj.
    + destruct (H t Ht) as (_&tab&Htab&Hc&_).
      unfold tab_crons. simpl. by rewrite Htab.
Qed.

Lemma Tidy_add w cls loc s :
  Inv s → Tidy s → Tidy (final (CronTabs_add w cls loc s)).
Proof.
  intros I T. rewrite add_eq_construct.
  assert (∀ t, t ∈ self_tabs s → t < length (tabs s)) as Hlt.
  { intros t. apply tabs_ok_lt, I. }
  assert (∀ new s', allocs s s' →
            handles_new (λ _, True) (length (tabs s)) s' new →
            Tidy (owning new s')) as Halloc.
  { intros new s' A H. pose proof (Tidy_allocs s s' I T A) as [J1 J2 J3].
    pose proof A as (?&?&_&_&Hs&_).
    eapply Tidy_owning; try done. by rewrite Hs. }
  destruct (construct w cls loc s) as [new s'|e s'] eqn:C; simpl.
  - pose proof (construct_new _ _ _ _ _ _ I C) as H.
    destruct cls; simpl in C.
    + pose proof (UserSpool_spec w loc s) as A. rewrite C in A.
      destruct A as [A _]. by apply Halloc.
    + pose proof (SystemTab_spec w loc s) as A. rewrite C in A.
      destruct A as [A _]. by apply Halloc.
    + destruct (AnaCronTab_returns _ _ _ _ _ I C)
        as [(->&->&_)|[(->&->&_)|(->&j&a&l&_&Ha&->)]]; [done| |].
      * pose proof (Tidy_searched w s I T) as [J1 J2 J3].
        eapply Tidy_owning; try done; rewrite ?searched_self; done.
      * assert (Tidy (absorb loc a (length (tabs s)) l (searched w s)))
          as [J1 J2 J3].
        { apply Tidy_absorb; [by apply Tidy_searched| |by apply searched_cache].
          rewrite searched_self. apply seed_not_owned, I. }
        simpl in J2, J3. rewrite searched_self in J2, J3.
        eapply Tidy_owning; try done; simpl; rewrite ?searched_self; try done.
        intros t Ht. rewrite tab_crons_deleted. specialize (J3 t Ht).
        destruct (decide _); [by apply NoDup_filter|done].
  - destruct cls; simpl in C.
    + pose proof (UserSpool_spec w loc s) as A. rewrite C in A.
      by eapply Tidy_allocs.
    + pose proof (SystemTab_spec w loc s) as A. rewrite C in A.
      by eapply Tidy_allocs.
    + destruct (AnaCronTab_raises _ _ _ _ _ I C) as (j&a&l&_&_&->).
      apply Tidy_absorb; [by apply Tidy_searched| |by apply searched_cache].
      rewrite searched_self. apply seed_not_owned, I.
Qed.

Lemma reachable_Tidy s : reachable s → Tidy s.
Proof.
  induction 1 as [js ts|w cls loc s R IH|w s R IH].
  - split; simpl; [done|constructor|]. intros t H. by apply not_elem_of_nil in H.
  - apply Tidy_add; [by apply reachable_Inv|done].
  - pose proof (reachable_Inv s R) as I. rewrite all_eq by apply I. simpl.
    by apply Tidy_after_all.
Qed.

Lemma elem_of_concat_map {A} (f : A → list nat) (ts : list A) j :
  j ∈ concat (List.map f ts) → ∃ t, t ∈ ts ∧ j ∈ f t.
Proof.
  induction ts as [|t ts IH]; simpl; [by intros ?%not_elem_of_nil|].
  intros [H|H]%elem_of_app.
  - exists t. split; [left|done].
  - destruct (IH H) as (t'&?&?). exists t'. split; [by right|done].
Qed.

Lemma NoDup_concat_map {A} (f : A → list nat) (ts : list A) :
  NoDup ts → (∀ t, t ∈ ts → NoDup (f t)) →
  (∀ t t' j, t ∈ ts → t' ∈ ts → j ∈ f t → j ∈ f t' → t = t') →
  NoDup (concat (List.map f ts)).
Proof.
  induction 1 as [|t ts Hnin Hd IH]; intros Hf Hdisj; simpl; [constructor|].
  apply NoDup_app. split; [apply Hf; left|]. split.
  - intros j Hj Hj'. apply elem_of_concat_map in Hj' as (t'&Ht'&Hjt').
    assert (t = t') as -> by (eapply Hdisj; [left|by right|done..]). done.
  - apply IH.
    + intros t' Ht'. apply Hf. by right.
    + intros t1 t2 j H1 H2. apply Hdisj; by right.
Qed.

Lemma owner_unique s t t' j :
  Inv s → t ∈ self_tabs s → t' ∈ self_tabs s →
  j ∈ tab_crons s t → j ∈ tab_crons s t' → t = t'.
Proof.
  intros I Ht Ht' Hj Hj'.
  destruct (inv_owned s I t j Ht Hj) as (a&Ha&Hc).
  destruct (inv_owned s I t' j Ht' Hj') as (a'&Ha'&Hc'). congruence.
Qed.

Lemma NoDup_merged s : Inv s → Tidy s → NoDup (merged_jobs s).
Proof.
  intros I [_ J2 J3]. apply NoDup_concat_map; [done..|].
  intros t t' j. by apply owner_unique.
Qed.

(** X6. The cache is current.  In every state of the aggregator a cached
    view lists exactly the jobs of the owned tabs, tabs in insertion order and
    each tab's jobs in its own order; so every read of [CronTabs.all], cached
    or rebuilt, returns the current jobs of the owned tabs, and it changes
    neither the aggregator's list nor what the tabs list. *)
Theorem view_is_current (s : State) :
  reachable s →
  (∀ v, c_all s = Some v → tab_crons s v = merged_jobs s) ∧
  ∀ w, ∃ v s', CronTabs.all w s = Ok v s' ∧
    tab_crons s' v = merged_jobs s' ∧
    merged_jobs s' = merged_jobs s ∧ self_tabs s' = self_tabs s.
Proof.
  intros R. pose proof (reachable_Inv s R) as I.
  pose proof (reachable_Tidy s R) as T. split; [apply T|].
  intros w. exists (view_of s), (after_all w s).
  split; [apply all_eq, I|].
  pose proof (Tidy_after_all w s I T) as T'.
  split; [apply T', after_all_cache|].
  unfold after_all. destruct (c_all s); [done|].
  split; [apply merged_jobs_rebuilt, I|done].
Qed.

Lemma view_is_current_witness :
  reachable (final (CronTabs.all debian debian_two)) ∧
  c_all (final (CronTabs.all debian debian_two)) = Some 3 ∧
  tab_crons (final (CronTabs.all debian debian_two)) 3 =
    merged_jobs (final (CronTabs.all debian debian_two)).
Proof.
  assert (reachable (final (CronTabs.all debian debian_two))) as R.
  { unfold debian_two, empty_state. apply reach_all. do 2 apply reach_add.
    apply reach_new. }
  split; [exact R|]. split; [reflexivity|].
  exact (proj1 (view_is_current _ R) 3 eq_refl).
Defined.

(** X7. The aggregator never owns a handle twice, and every owned handle is
    a tab of the store: [add] only appends handles its source just
    created. *)
Theorem handles_owned_once (s : State) :
  reachable s →
  NoDup (self_tabs s) ∧ ∀ t, t ∈ self_tabs s → ∃ tab, tabs s !! t = Some tab.
Proof.
  intros R. split; [apply (reachable_Tidy s R)|].
  intros t Ht. apply lookup_lt_is_Some_2, tabs_ok_lt; [|done].
  apply (reachable_Inv s R).
Qed.

Lemma handles_owned_once_witness :
  reachable debian_two ∧ NoDup (self_tabs debian_two).
Proof.
  assert (reachable debian_two) as R.
  { unfold debian_two, empty_state. do 2 apply reach_add. apply reach_new. }
  split; [exact R|]. exact (proj1 (handles_owned_once debian_two R)).
Defined.

(** X8. The merged view never shows a job twice: in every state of the
    aggregator the view a read of [CronTabs.all] returns has no duplicate,
    and each of its jobs is listed by exactly one owned tab, the tab it was
    created in. *)
Theorem view_lists_jobs_once (w : Env) (s : State) :
  reachable s →
  ∃ v s', CronTabs.all w s = Ok v s' ∧
    NoDup (tab_crons s' v) ∧
    ∀ j, j ∈ tab_crons s' v →
      ∃ t job, t ∈ self_tabs s' ∧ j ∈ tab_crons s' t ∧
        jobs s' !! j = Some job ∧ cron job = t ∧
        ∀ t', t' ∈ self_tabs s' → j ∈ tab_crons s' t' → t' = t.
Proof.
  intros R. pose proof (reachable_Inv s R) as I.
  pose proof (reachable_Tidy s R) as T.
  pose proof (Inv_after_all w s I) as I'.
  pose proof (Tidy_after_all w s I T) as T'.
  exists (view_of s), (after_all w s). split; [apply all_eq, I|].
  rewrite (tidy_cache _ T' _ (after_all_cache w s)).
  split; [by apply NoDup_merged|].
  intros j (t&Ht&Hj)%elem_of_merged.
  destruct (inv_owned _ I' t j Ht Hj) as (job&Hjob&Hc).
  exists t, job. repeat split; try done.
  intros t' Ht' Hj'. by apply (owner_unique (after_all w s) t' t j).
Qed.

Lemma view_lists_jobs_once_witness :
  reachable debian_two ∧
  ∃ v s', CronTabs.all debian debian_two = Ok v s' ∧ NoDup (tab_crons s' v).
Proof.
  assert (reachable debian_two) as R.
  { unfold debian_two, empty_state. do 2 apply reach_add. apply reach_new. }
  split; [exact R|].
  destruct (view_lists_jobs_once debian debian_two R) as (v&s'&E&H&_).
  by exists v, s'.
Defined.

(** ** What the aggregator keeps of the objects it has *)

Lemma tab_crons_final_construct w cls loc s t :
  Inv s → t < length (tabs s) →
  ∀ j, j ∈ tab_crons (final (construct w cls loc s)) t → j ∈ tab_crons s t.
Proof.
  intros I Ht j.
  assert (∀ a l, j ∈ tab_crons (absorb loc a (length (tabs s)) l (searched w s)) t →
                 j ∈ tab_crons s t) as Habs.
  { intros a l. by rewrite tab_crons_absorb, tab_crons_searched by lia. }
  destruct (construct w cls loc s) as [new s'|e s'] eqn:C; simpl;
    destruct cls; simpl in C.
  - pose proof (UserSpool_spec w loc s) as A. rewrite C in A. destruct A as [A _].
    by rewrite (tab_crons_allocs s s').
  - pose proof (SystemTab_spec w loc s) as A. rewrite C in A. destruct A as [A _].
    by rewrite (tab_crons_allocs s s').
  - destruct (AnaCronTab_returns _ _ _ _ _ I C)
      as [(_&->&_)|[(_&->&_)|(_&j0&a&l&_&_&->)]]; [done| |].
    + by rewrite tab_crons_searched.
    + rewrite tab_crons_deleted. destruct (decide _); [|apply Habs].
      intros [_ H]%list_elem_of_filter. by eapply Habs.
  - pose proof (UserSpool_spec w loc s) as A. rewrite C in A.
    by rewrite (tab_crons_allocs s s').
  - pose proof (SystemTab_spec w loc s) as A. rewrite C in A.
    by rewrite (tab_crons_allocs s s').
  - destruct (AnaCronTab_raises _ _ _ _ _ I C) as (j0&a&l&_&_&->). apply Habs.
Qed.

Lemma final_add_construct w cls loc s :
  jobs (final (CronTabs_add w cls loc s)) = jobs (final (construct w cls loc s)) ∧
  tabs (final (CronTabs_add w cls loc s)) = tabs (final (construct w cls loc s)).
Proof.
  rewrite add_eq_construct. destruct (construct w cls loc s) as [new s'|e s'];
    simpl; [by destruct new|done].
Qed.

Lemma jobs_kept_construct w cls loc s :
  Inv s → jobs_kept (jobs s) (jobs (final (construct w cls loc s))).
Proof.
  intros I.
  assert (∀ a l, jobs_kept (jobs s)
            (jobs (absorb loc a (length (tabs s)) l (searched w s)))) as Habs.
  { intros a l. eapply jobs_kept_trans; [apply (searched_frame w s)|].
    apply jobs_kept_app. }
  destruct (construct w cls loc s) as [new s'|e s'] eqn:C; simpl;
    destruct cls; simpl in C.
  - pose proof (UserSpool_spec w loc s) as A. rewrite C in A. destruct A as [A _].
    apply (allocs_frame _ _ A).
  - pose proof (SystemTab_spec w loc s) as A. rewrite C in A. destruct A as [A _].
    apply (allocs_frame _ _ A).
  - destruct (AnaCronTab_returns _ _ _ _ _ I C)
      as [(_&->&_)|[(_&->&_)|(_&j0&a&l&_&_&->)]];
      [apply jobs_kept_refl|apply (searched_frame w s)|apply Habs].
  - pose proof (UserSpool_spec w loc s) as A. rewrite C in A.
    apply (allocs_frame _ _ A).
  - pose proof (SystemTab_spec w loc s) as A. rewrite C in A.
    apply (allocs_frame _ _ A).
  - destruct (AnaCronTab_raises _ _ _ _ _ I C) as (j0&a&l&_&_&->). apply Habs.
Qed.

Lemma tabs_kept_construct w cls loc s :
  Inv s → tabs_kept (tabs s) (tabs (final (construct w cls loc s))).
Proof.
  intros I t a Ha.
  pose proof (lookup_lt_Some _ _ _ Ha) as Hlt.
  pose proof (tab_crons_final_construct w cls loc s t I Hlt) as Hsub.
  assert (∀ s', tabs_kept (tabs (searched w s)) (tabs s') ∨
                (∃ x l, tabs_kept (tabs (absorb loc x (length (tabs s)) l
                                           (searched w s))) (tabs s')) ∨
                tabs_kept (tabs s) (tabs s') →
            (∀ j, j ∈ tab_crons s' t → j ∈ tab_crons s t) →
            ∃ b, tabs s' !! t = Some b ∧ tab_kept a b) as Hgo.
  { intros s' H Hs.
    assert (∃ b, tabs s' !! t = Some b ∧ tab_user b = tab_user a ∧
                 tabfile b = tabfile a) as (b&Hb&Hu&Hf).
    { destruct (fr_tabs _ _ (searched_frame w s) t a Ha) as (b1&Hb1&Hu1&Hf1&_).
      destruct H as [H|[(x&l&H)|H]].
      - destruct (H t b1 Hb1) as (b&Hb&Hu&Hf&_). exists b. split; [done|].
        split; congruence.
      - assert (tabs (absorb loc x (length (tabs s)) l (searched w s)) !! t
                = Some b1) as Hb2.
        { simpl. rewrite list_lookup_alter_ne by lia. done. }
        destruct (H t b1 Hb2) as (b&Hb&Hu&Hf&_). exists b. split; [done|].
        split; congruence.
      - destruct (H t a Ha) as (b&Hb&Hu&Hf&_). eauto. }
    exists b. split; [done|]. split; [done|]. split; [done|].
    intros j Hj. specialize (Hs j). unfold tab_crons in Hs.
    rewrite Hb, Ha in Hs. by apply Hs. }
  apply Hgo; [|done].
  destruct (construct w cls loc s) as [new s'|e s'] eqn:C; simpl;
    destruct cls; simpl in C.
  - pose proof (UserSpool_spec w loc s) as A. rewrite C in A. destruct A as [A _].
    right. right. apply (allocs_frame _ _ A).
  - pose proof (SystemTab_spec w loc s) as A. rewrite C in A. destruct A as [A _].
    right. right. apply (allocs_frame _ _ A).
  - destruct (AnaCronTab_returns _ _ _ _ _ I C)
      as [(_&->&_)|[(_&->&_)|(_&j0&a0&l&_&_&->)]].
    + right. right. apply tabs_kept_refl.
    + left. apply tabs_kept_refl.
    + right. left. exists a0, l.
      apply (deleted_kept j0 (cron a0)
               (absorb loc a0 (length (tabs s)) l (searched w s))).
  - pose proof (UserSpool_spec w loc s) as A. rewrite C in A.
    right. right. apply (allocs_frame _ _ A).
  - pose proof (SystemTab_spec w loc s) as A. rewrite C in A.
    right. right. apply (allocs_frame _ _ A).
  - destruct (AnaCronTab_raises _ _ _ _ _ I C) as (j0&a0&l&_&_&->).
    right. left. exists a0, l. apply tabs_kept_refl.
Qed.

Lemma evolves_Inv s s' : Inv s → evolves s s' → Inv s'.
Proof.
  intros I. induction 1 as [|w cls loc s' _ IH|w s' _ IH]; [done|..].
  - by apply Inv_add.
  - by apply Inv_all.
Qed.

Lemma evolves_kept s s' :
  Inv s → evolves s s' →
  jobs_kept (jobs s) (jobs s') ∧ tabs_kept (tabs s) (tabs s').
Proof.
  intros I E. induction E as [|w cls loc s' E [IHj IHt]|w s' E [IHj IHt]].
  - split; [apply jobs_kept_refl|apply tabs_kept_refl].
  - pose proof (evolves_Inv s s' I E) as I'.
    destruct (final_add_construct w cls loc s') as [-> ->]. split.
    + eapply jobs_kept_trans; [done|by apply jobs_kept_construct].
    + eapply tabs_kept_trans; [done|by apply tabs_kept_construct].
  - pose proof (evolves_Inv s s' I E) as I'.
    rewrite all_eq by apply I'. simpl.
    destruct (after_all_frame w s') as [J T _]. split.
    + by eapply jobs_kept_trans.
    + by eapply tabs_kept_trans.
Qed.

(** X9. What the aggregator never does to the objects it has.  However
    [add] and [all] are called from a state, and whether they return or
    raise: every job keeps its command, comment, schedule and the tab it was
    created in, and keeps its user unless that was [None], in which case it
    may have been given one; every tab keeps its user and its file, and gains
    no job (it can only lose some). *)
Theorem aggregator_keeps_objects (s s' : State) :
  reachable s → evolves s s' →
  (∀ j job, jobs s !! j = Some job →
     ∃ job', jobs s' !! j = Some job' ∧
       command job' = command job ∧ comment job' = comment job ∧
       slices job' = slices job ∧ cron job' = cron job ∧
       (user job ≠ PNone → user job' = user job)) ∧
  (∀ t tab, tabs s !! t = Some tab →
     ∃ tab', tabs s' !! t = Some tab' ∧
       tab_user tab' = tab_user tab ∧ tabfile tab' = tabfile tab ∧
       ∀ j, j ∈ crons tab' → j ∈ crons tab).
Proof.
  intros R E.
  destruct (evolves_kept s s' (reachable_Inv s R) E) as [J T]. split.
  - intros j job Hj. destruct (J j job Hj) as (job'&Hj'&Hd).
    apply defaulted_fields in Hd as (?&?&?&?&Hu&_).
    exists job'. repeat split; try done. intros Hn. by rewrite Hu.
  - intros t tab Ht. destruct (T t tab Ht) as (tab'&Ht'&Hk). by exists tab'.
Qed.

Lemma aggregator_keeps_objects_witness :
  let s' := final (CronTabs_add debian cAnaCronTab "/etc/cron.daily"
              (final (CronTabs.all debian debian_two))) in
  (reachable debian_two ∧ evolves debian_two s') ∧
  ∃ job', jobs s' !! 2 = Some job' ∧
          command job' = "run-parts /etc/cron.daily" ∧
  ∃ tab', tabs s' !! 2 = Some tab' ∧ tabfile tab' = Some "/etc/crontab" ∧
          ∀ j, j ∈ crons tab' → j ∈ [2].
Proof.
  intros s'.
  assert (reachable debian_two) as R.
  { unfold debian_two, empty_state. do 2 apply reach_add. apply reach_new. }
  assert (evolves debian_two s') as E.
  { apply evolves_add, evolves_all, evolves_here. }
  split; [done|].
  destruct (aggregator_keeps_objects debian_two s' R E) as [Hj Ht].
  destruct (Hj 2 (mkJob "run-parts /etc/cron.daily" "" (PStr "root") at_6_25 2)
              eq_refl) as (job'&Hjob'&Hc&_).
  destruct (Ht 2 (mkCronTab (PBool false) (Some "/etc/crontab") [2]) eq_refl)
    as (tab'&Htab'&_&Hf&Hs).
  exists job'. split; [done|]. split; [done|]. by exists tab'.
Defined.

(** ** An [add] that raises *)

Lemma add_raises_same w cls loc s e s' :
  Inv s → CronTabs_add w cls loc s = Raise e s' →
  self_tabs s' = self_tabs s ∧
  ∀ t, t ∈ self_tabs s → tab_crons s' t = tab_crons s t.
Proof.
  intros I. rewrite add_eq_construct.
  destruct (construct w cls loc s) as [new s1|e1 s1] eqn:C; [done|].
  intros [= <- <-].
  assert (∀ t, t ∈ self_tabs s → t < length (tabs s)) as Hlt.
  { intros t. apply tabs_ok_lt, I. }
  destruct cls; simpl in C.
  - pose proof (UserSpool_spec w loc s) as A. rewrite C in A.
    pose proof A as (?&?&_&_&Hs&_). split; [done|].
    intros t Ht. apply tab_crons_allocs; auto.
  - pose proof (SystemTab_spec w loc s) as A. rewrite C in A.
    pose proof A as (?&?&_&_&Hs&_). split; [done|].
    intros t Ht. apply tab_crons_allocs; auto.
  - destruct (AnaCronTab_raises _ _ _ _ _ I C) as (j0&a&l&_&_&->).
    split; [simpl; apply searched_self|].
    intros t Ht. specialize (Hlt t Ht).
    by rewrite tab_crons_absorb, tab_crons_searched by lia.
Qed.

(** X10. An [add] whose source raises is invisible in the merged view: the
    aggregator owns the same handles as before, they list the same jobs, and
    the next read of [CronTabs.all] returns exactly the jobs that were owned
    before the call; nothing the failed source had already opened
    appears. *)
Theorem failed_add_is_invisible (w : Env) (cls : TabSource) (loc : string)
        (s s' : State) (e : exn) :
  reachable s → CronTabs_add w cls loc s = Raise e s' →
  self_tabs s' = self_tabs s ∧
  (∀ t, t ∈ self_tabs s → tab_crons s' t = tab_crons s t) ∧
  ∀ w', ∃ v s2, CronTabs.all w' s' = Ok v s2 ∧ tab_crons s2 v = merged_jobs s.
Proof.
  intros R H. pose proof (reachable_Inv s R) as I.
  destruct (add_raises_same _ _ _ _ _ _ I H) as [Hs Ht].
  split; [done|]. split; [done|]. intros w'.
  assert (reachable s') as R'.
  { pose proof (reach_add w cls loc s R) as R'. by rewrite H in R'. }
  pose proof (reachable_Inv s' R') as I'.
  pose proof (reachable_Tidy s' R') as T'.
  exists (view_of s'), (after_all w' s'). split; [apply all_eq, I'|].
  rewrite (tidy_cache _ (Tidy_after_all w' s' I' T') _ (after_all_cache w' s')).
  transitivity (merged_jobs s').
  - unfold after_all. destruct (c_all s'); [done|]. apply merged_jobs_rebuilt, I'.
  - by apply merged_jobs_ext.
Qed.

Lemma failed_add_is_invisible_witness :
  reachable debian_two ∧
  ∃ s', CronTabs_add locked cSystemTab "/etc/cron.d/" debian_two
          = Raise OSError s' ∧
        ∃ v s2, CronTabs.all locked s' = Ok v s2 ∧
                tab_crons s2 v = merged_jobs debian_two.
Proof.
  assert (reachable debian_two) as R.
  { unfold debian_two, empty_state. do 2 apply reach_add. apply reach_new. }
  split; [exact R|]. eexists. split; [vm_compute; reflexivity|].
  match goal with |- context [CronTabs.all _ ?s'] =>
    destruct (failed_add_is_invisible locked cSystemTab "/etc/cron.d/"
                debian_two s' OSError R) as (_&_&H) end;
    [vm_compute; reflexivity|].
  exact (H locked).
Defined.

(** ** The merged view after an absorption *)

Lemma prefix_append a b : String.prefix a (a ++ b)%string = true.
Proof.
  induction a as [|c a IH]; simpl; [by destruct b|].
  destruct (ascii_dec c c); [done|congruence].
Qed.

Lemma contains_prefix a s : String.prefix a s = true → contains a s = true.
Proof. intros H. destruct s; cbn [contains]; by rewrite H. Qed.

(** The command of an absorbed job contains the directory path. *)
Lemma contains_join loc item :
  String.prefix "/" item = false →
  contains loc (os_path_join loc item) = true.
Proof.
  intros H. unfold os_path_join. rewrite H.
  destruct (_ || _); apply contains_prefix, prefix_append.
Qed.

Lemma add_absorbs w loc s items anajob a :
  Inv s → self_tabs s ≠ [] → os_isdir w loc = true →
  os_listdir w loc = Some items →
  Forall (λ item, item ≠ EmptyString) items →
  template s loc = Some anajob → jobs (searched w s) !! anajob = Some a →
  CronTabs_add w cAnaCronTab loc s =
  Ok tt (owning [length (tabs s)]
           (deleted anajob (cron a)
              (absorb loc a (length (tabs s))
                 (List.filter (absorbs w loc) items) (searched w s)))).
Proof.
  intros. rewrite add_eq_construct. simpl.
  by rewrite (AnaCronTab_absorbs w loc s items anajob a).
Qed.

Lemma merged_after_absorb w loc s l anajob a :
  Inv s → template s loc = Some anajob →
  jobs (searched w s) !! anajob = Some a →
  merged_jobs (owning [length (tabs s)]
                 (deleted anajob (cron a)
                    (absorb loc a (length (tabs s)) l (searched w s)))) =
  filter (λ i, i ≠ anajob) (merged_jobs s) ++
  seq (length (jobs s)) (length l).
Proof.
  intros I Ht Ha.
  set (s' := deleted anajob (cron a)
               (absorb loc a (length (tabs s)) l (searched w s))).
  unfold merged_jobs at 1. rewrite self_tabs_owning.
  rewrite (List.map_ext _ _ (tab_crons_owning [length (tabs s)] s')).
  change (self_tabs s') with (self_tabs (searched w s)).
  rewrite searched_self, List.map_app, concat_app. f_equal.
  - by apply (old_jobs_absorbed w loc a l s anajob).
  - cbn [List.map concat]. rewrite app_nil_r. unfold s'.
    rewrite tab_crons_deleted.
    unfold tab_crons. rewrite (absorb_seed loc a _ l _ (searched_seed w s)).
    cbn [crons fresh_view]. rewrite searched_length.
    destruct (decide _); [|done].
    apply filter_seq_below. apply lookup_lt_Some in Ha.
    by rewrite searched_length in Ha.
Qed.

(** X11. The merged view after an absorption.  When [add] runs [AnaCronTab]
    over a directory and a template is found, the aggregator afterwards owns
    exactly the previous jobs without the template, in their previous order,
    followed by the new jobs; the template is in no owned tab any more, so no
    later read shows it, also when no entry of the directory was
    absorbable; every other job is still there. *)
Theorem view_after_absorption (w : Env) (loc : string) (s : State)
        (items : list string) (anajob : nat) :
  reachable s → self_tabs s ≠ [] → os_isdir w loc = true →
  os_listdir w loc = Some items →
  Forall (λ item, item ≠ EmptyString) items →
  template s loc = Some anajob →
  ∃ s1, CronTabs_add w cAnaCronTab loc s = Ok tt s1 ∧
    merged_jobs s1 =
      filter (λ i, i ≠ anajob) (merged_jobs s) ++
      seq (length (jobs s)) (length (List.filter (absorbs w loc) items)) ∧
    (anajob ∉ merged_jobs s1) ∧
    (∀ j, j ∈ merged_jobs s → j ≠ anajob → j ∈ merged_jobs s1) ∧
    ∀ w', ∃ v s2, CronTabs.all w' s1 = Ok v s2 ∧
                  tab_crons s2 v = merged_jobs s1.
Proof.
  intros R Hs Hd Hl Hne Ht. pose proof (reachable_Inv s R) as I.
  destruct (template_job w s loc anajob I Ht) as (a0&a&Ha0&Ha&_&_).
  eexists. split; [by apply (add_absorbs w loc s items anajob a)|].
  set (s1 := owning _ _).
  assert (merged_jobs s1 =
          filter (λ i, i ≠ anajob) (merged_jobs s) ++
          seq (length (jobs s)) (length (List.filter (absorbs w loc) items)))
    as E by by apply merged_after_absorb.
  split; [exact E|]. rewrite E. split; [|split].
  - intros [[? _]%list_elem_of_filter|Hin]%elem_of_app; [done|].
    apply list_elem_of_lookup in Hin as [i Hi]. apply lookup_seq in Hi as [Hi _].
    apply lookup_lt_Some in Ha0. lia.
  - intros j Hj Hjne. apply elem_of_app. left. by apply list_elem_of_filter.
  - intros w'.
    assert (reachable s1) as R1.
    { pose proof (reach_add w cAnaCronTab loc s R) as R1.
      by rewrite (add_absorbs w loc s items anajob a) in R1. }
    pose proof (reachable_Inv s1 R1) as I1.
    exists (view_of s1), (after_all w' s1). split; [apply all_eq, I1|].
    by rewrite after_all_view.
Qed.

Lemma view_after_absorption_witness :
  (reachable debian_two ∧ template debian_two "/etc/cron.daily" = Some 2) ∧
  ∃ s1, CronTabs_add debian cAnaCronTab "/etc/cron.daily" debian_two = Ok tt s1 ∧
        merged_jobs debian_two = [0; 1; 2] ∧ merged_jobs s1 = [0; 1; 3].
Proof.
  assert (reachable debian_two) as R.
  { unfold debian_two, empty_state. do 2 apply reach_add. apply reach_new. }
  assert (template debian_two "/etc/cron.daily" = Some 2) as Ht
    by (vm_compute; reflexivity).
  split; [done|].
  destruct (view_after_absorption debian "/etc/cron.daily" debian_two
              ["0anacron"; ".bak"; "run.sh"; "README"] 2 R)
    as (s1&E&Hm&_); [vm_compute; discriminate|reflexivity|reflexivity| |exact Ht|].
  { repeat constructor; discriminate. }
  exists s1. split; [done|]. split; [vm_compute; reflexivity|].
  rewrite Hm. vm_compute. reflexivity.
Defined.

(** X12. Absorbing is not idempotent: the command of an absorbed job is a
    path under the directory, so it contains the directory path that
    [AnaCronTab] searches for.  After an absorption that made at least one
    job, the merged view again holds a template for the same directory,
    another job than the one just deleted; a second [AnaCronTab] over the
    directory would absorb from it and delete it. *)
Theorem absorbed_jobs_match_again (w : Env) (loc : string) (s : State)
        (items : list string) (anajob : nat) :
  reachable s → self_tabs s ≠ [] → os_isdir w loc = true →
  os_listdir w loc = Some items →
  Forall (λ item, item ≠ EmptyString ∧ String.prefix "/" item = false) items →
  template s loc = Some anajob →
  List.filter (absorbs w loc) items ≠ [] →
  ∃ s1 again job,
    CronTabs_add w cAnaCronTab loc s = Ok tt s1 ∧
    template s1 loc = Some again ∧ again ≠ anajob ∧
    jobs s1 !! again = Some job ∧ contains loc (command job) = true.
Proof.
  intros R Hs Hd Hl Hitems Ht Hsome. pose proof (reachable_Inv s R) as I.
  destruct (template_job w s loc anajob I Ht) as (a0&a&Ha0&Ha&_&_).
  assert (Forall (λ item, item ≠ EmptyString) items) as Hne.
  { eapply Forall_impl; [done|]. by intros x [? _]. }
  remember (List.filter (absorbs w loc) items) as l eqn:El.
  set (s1 := owning [length (tabs s)]
               (deleted anajob (cron a)
                  (absorb loc a (length (tabs s)) l (searched w s)))).
  assert (CronTabs_add w cAnaCronTab loc s = Ok tt s1) as E
    by (unfold s1; rewrite El; by apply add_absorbs).
  assert (merged_jobs s1 =
          filter (λ i, i ≠ anajob) (merged_jobs s) ++
          seq (length (jobs s)) (length l)) as Em by by apply merged_after_absorb.
  (* the first absorbed job matches *)
  destruct l as [|item l']; [done|].
  assert (item ∈ items) as Hitem.
  { apply list_elem_of_In. eapply (proj1 (filter_In (absorbs w loc) _ _)).
    rewrite <- El. left. done. }
  assert (String.prefix "/" item = false) as Hrel.
  { rewrite Forall_forall in Hitems. by apply Hitems. }
  assert (jobs s1 !! length (jobs s) = Some (absorbed loc a (length (tabs s)) item))
    as Hnew.
  { pose proof (absorb_job loc a (length (tabs s)) (item :: l') (searched w s)
                  0 item eq_refl) as H.
    rewrite searched_length, Nat.add_0_r in H. exact H. }
  assert (job_matches s1 loc (length (jobs s)) = true) as Hm.
  { unfold job_matches. rewrite Hnew. simpl. by apply contains_join. }
  assert (length (jobs s) ∈ combined s1) as Hin.
  { unfold combined. simpl. fold s1. rewrite Em. apply elem_of_app. right. left. }
  unfold template.
  destruct (List.filter (job_matches s1 loc) (combined s1)) as [|again rest] eqn:F.
  { exfalso. apply list_elem_of_In in Hin.
    pose proof (proj2 (filter_In (job_matches s1 loc) _ (combined s1))
                  (conj Hin Hm)) as H. by rewrite F in H. }
  assert (In again (List.filter (job_matches s1 loc) (combined s1))) as Hagain
    by (rewrite F; by left).
  apply filter_In in Hagain as [Hc Hmatch].
  unfold job_matches in Hmatch.
  destruct (jobs s1 !! again) as [job|] eqn:Hjob; [|done].
  exists s1, again, job. split; [done|]. split; [by rewrite F|].
  split; [|done].
  intros ->. apply list_elem_of_In in Hc. unfold combined in Hc. simpl in Hc.
  fold s1 in Hc. rewrite Em in Hc.
  apply elem_of_app in Hc as [[? _]%list_elem_of_filter|Hc]; [done|].
  apply list_elem_of_lookup in Hc as [i Hi]. apply lookup_seq in Hi as [Hi _].
  apply lookup_lt_Some in Ha0. lia.
Qed.

Lemma absorbed_jobs_match_again_witness :
  (reachable debian_two ∧ template debian_two "/etc/cron.daily" = Some 2) ∧
  ∃ s1 again job,
    CronTabs_add debian cAnaCronTab "/etc/cron.daily" debian_two = Ok tt s1 ∧
    template s1 "/etc/cron.daily" = Some again ∧ again ≠ 2 ∧
    jobs s1 !! again = Some job ∧
    contains "/etc/cron.daily" (command job) = true.
Proof.
  assert (reachable debian_two) as R.
  { unfold debian_two, empty_state. do 2 apply reach_add. apply reach_new. }
  assert (template debian_two "/etc/cron.daily" = Some 2) as Ht
    by (vm_compute; reflexivity).
  split; [done|].
  apply (absorbed_jobs_match_again debian "/etc/cron.daily" debian_two
           ["0anacron"; ".bak"; "run.sh"; "README"] 2 R);
    [vm_compute; discriminate|reflexivity|reflexivity| |exact Ht|
     vm_compute; discriminate].
  repeat constructor; discriminate.
Defined.

(** ** A discovery pass that raised *)

Lemma new_CronTabs_self p i p1 :
  new_CronTabs p = (i, p1) →
  cls_self p1 = Some i ∧ i < length (instances p1).
Proof.
  unfold new_CronTabs, not_self.
  destruct (cls_self p) as [k|] eqn:Hs.
  - destruct (instances p !! k) as [inst|] eqn:Hk.
    + destruct (i_tabs inst).
      * intros [= <- <-]. simpl. rewrite length_app. simpl. split; [done|lia].
      * intros [= <- <-]. split; [done|]. by eapply lookup_lt_Some.
    + intros [= <- <-]. simpl. rewrite length_app. simpl. split; [done|lia].
  - intros [= <- <-]. simpl. rewrite length_app. simpl. split; [done|lia].
Qed.

Lemma call_self w p :
  ∃ i s, cls_self (snd (CronTabs_call w p)) = Some i ∧
         instances (snd (CronTabs_call w p)) !! i =
           Some (mkInstance (self_tabs s) (c_all s)) ∧
         (∀ k, fst (CronTabs_call w p) = inr k → k = i).
Proof.
  unfold CronTabs_call. destruct (new_CronTabs p) as [i p1] eqn:N.
  apply new_CronTabs_self in N as [Hs Hi].
  destruct (CronTabs_init w (enter p1 i)) as [[] s|e s]; exists i, s; simpl;
    (split; [done|]); (split; [by apply list_lookup_insert_eq|]);
    by intros k [= ->].
Qed.

(** X13. A discovery pass that raised is never resumed.  After any call
    [CronTabs()], whether it returned or raised, [_self] holds an instance,
    the one the call returned if it returned.  When that instance owns a tab,
    which is the case when [__init__] raised after some location had been
    added, every later call returns it as it is: [__init__] sees a non-empty
    list and processes none of the locations that were left. *)
Theorem raised_pass_is_not_resumed (w : Env) (p : Process) :
  ∃ i inst,
    cls_self (snd (CronTabs_call w p)) = Some i ∧
    instances (snd (CronTabs_call w p)) !! i = Some inst ∧
    (∀ k, fst (CronTabs_call w p) = inr k → k = i) ∧
    (i_tabs inst ≠ [] →
     ∀ w', CronTabs_call w' (snd (CronTabs_call w p)) =
           (inr i, snd (CronTabs_call w p))).
Proof.
  destruct (call_self w p) as (i&s&Hs&Hi&Hk).
  exists i, (mkInstance (self_tabs s) (c_all s)).
  split; [done|]. split; [done|]. split; [done|]. simpl.
  intros Hne w'. destruct (self_tabs s) as [|t ts] eqn:E; [done|].
  by apply (singleton_reused w' _ i (mkInstance (t :: ts) (c_all s)) t ts).
Qed.

Example raised_pass_on_locked :
  let p1 := snd (CronTabs_call locked fresh_process) in
  fst (CronTabs_call locked fresh_process) = inl OSError ∧
  instances p1 !! 0 = Some (mkInstance [0; 1; 2] None) ∧
  CronTabs_call debian p1 = (inr 0, p1).
Proof. vm_compute. repeat split. Qed.

(** * What UserSpool and SystemTab produce *)

(** ** The loop of UserSpool, entry by entry *)





(** ** UserSpool: the fallback *)

(** C4, amended. When [UserSpool] keeps no handle of the listing, that is
    when the loop [for username in self.listdir(loc)] ends with [self] empty
    (the directory is absent, unreadable or empty, in which cases the listing
    raises nothing and the loop does nothing, or every listed entry gave a
    false handle, which was dropped), [UserSpool] opens the invoking user's
    crontab in the store the loop left; when that opens, the result is
    exactly that one handle if the handle is true, and no handle if it is
    false. *)
Theorem spool_fallback (w : Env) (D : string) (s : State) :
  (os_listdir w D = None ∨ os_listdir w D = Some [] →
   UserSpool.listdir w D = [] ∧
   UserSpool.entries w D (UserSpool.listdir w D) [] s = Ok [] s) ∧
  ∀ (s1 : State) (lines : list JobLine),
    UserSpool.entries w D (UserSpool.listdir w D) [] s = Ok [] s1 →
    crontab_of_user w (current_user w) = inr lines →
    tabs (opened (PBool true) None lines s1) !! length (tabs s1) =
      Some (mkCronTab (PBool true) None (seq (length (jobs s1)) (length lines))) ∧
    UserSpool.init w D s =
      Ok (if tab_bool w (mkCronTab (PBool true) None
                           (seq (length (jobs s1)) (length lines)))
          then [length (tabs s1)] else [])
         (opened (PBool true) None lines s1).
Proof.
  split.
  - intros Hl.
    assert (UserSpool.listdir w D = []) as E
      by (unfold UserSpool.listdir; by destruct Hl as [-> | ->]).
    by rewrite E.
  - intros s1 lines Hloop Hc. split; [apply opened_tab|].
    unfold UserSpool.init. unfold bind at 1. rewrite Hloop.
    unfold bind. rewrite (new_CronTab_Ok _ _ _ _ lines) by done.
    unfold append_if_true. rewrite opened_tab. by destruct (tab_bool w _).
Qed.

Lemma spool_fallback_witness :
  UserSpool.listdir debian_idle "/var/spool/cron/crontabs/" = ["carol"] ∧
  UserSpool.entries debian_idle "/var/spool/cron/crontabs/" ["carol"] []
    empty_state = Ok [] (opened (PStr "carol") None [] empty_state) ∧
  UserSpool.init debian_idle "/var/spool/cron/crontabs/" empty_state =
    Ok [1] (opened (PBool true) None
              [mkJobLine "echo hi" "" PNone every_minute]
              (opened (PStr "carol") None [] empty_state)).
Proof.
  split; [reflexivity|]. split; [reflexivity|].
  exact (proj2 (proj2 (spool_fallback debian_idle "/var/spool/cron/crontabs/"
                         empty_state)
                  (opened (PStr "carol") None [] empty_state)
                  [mkJobLine "echo hi" "" PNone every_minute]
                  eq_refl eq_refl)).
Defined.

(** The same with a listing that cannot be read: the loop does nothing and
    the fallback is opened in the store as it was. *)
Example spool_fallback_unlisted :
  UserSpool.init debian "/nowhere" empty_state =
    Ok [0] (opened (PBool true) None
              [mkJobLine "echo hi" "" PNone every_minute] empty_state).
Proof. reflexivity. Qed.

(** ** UserSpool: the handle of an entry *)




(** An entry that cannot be stat'ed: the [OSError] of [os.stat] is not the
    [KeyError] that [get_owner] catches, and [UserSpool] raises it. *)
Example spool_stat_raises :
  UserSpool.init debian_stale "/var/spool/cron/crontabs/" empty_state
  = Raise OSError (opened (PStr "alice") None
                     [mkJobLine "echo hi" "" PNone every_minute] empty_state).
Proof. reflexivity. Qed.

(** ** SystemTab: one handle per entry, or none at all *)

(** C6, counterexample: /etc/cron.d/ holds job1 and a subdirectory, which
    the engine cannot open as a crontab.  No handler is around the
    constructor: [SystemTab] raises, and produces no handle, not even the
    one of job1. *)
Lemma unopened_entry_no_handles : ¬ system_tab_per_entry.
Proof.
  intros H.
  destruct (H debian_subdir "/etc/cron.d/" empty_state ["job1"; "sub"])
    as (new&s'&E&_); try reflexivity.
  { repeat constructor; discriminate. }
  vm_compute in E. discriminate.
Qed.

(** C6, amended. [SystemTab(P)]: when [P] is a directory that lists, and
    every entry whose name does not start with '.' opens, exactly one handle
    per such entry, in listing order, each ownerless and bound to the entry's
    full path; when one such entry does not open, [SystemTab] raises and
    produces no handle.  When [P] is a regular file that opens, exactly one
    ownerless handle bound to [P]; when it does not open, [SystemTab] raises.
    When [P] is neither, no handle, no error and no change. *)
Theorem system_tab_handles (w : Env) (P : string) (s : State) :
  (os_isdir w P = true →
   ∀ items, os_listdir w P = Some items →
     (Forall (λ item, item ≠ EmptyString) items →
      (∀ item, item ∈ items → visible item = true →
         ∃ lines, crontab_of_file w (os_path_join P item) = inr lines) →
      ∃ new s', SystemTab.init w P s = Ok new s' ∧ NoDup new ∧
        Forall2 (λ t item, ∃ cs, tabs s' !! t =
                   Some (mkCronTab (PBool false) (Some (os_path_join P item)) cs))
                new (List.filter visible items)) ∧
     (∀ item e, item ∈ items → visible item = true →
        crontab_of_file w (os_path_join P item) = inl e →
        ∃ e' s', SystemTab.init w P s = Raise e' s')) ∧
  (os_isdir w P = false → os_isfile w P = true →
   (∀ lines, crontab_of_file w P = inr lines →
      ∃ t s' cs, SystemTab.init w P s = Ok [t] s' ∧
                 tabs s' !! t = Some (mkCronTab (PBool false) (Some P) cs)) ∧
   (∀ e, crontab_of_file w P = inl e → SystemTab.init w P s = Raise e s)) ∧
  (os_isdir w P = false → os_isfile w P = false →
   SystemTab.init w P s = Ok [] s).
Proof.
  unfold SystemTab.init. split; [|split].
  - intros -> items ->. split.
    + intros Hne Hopen.
      destruct (SystemTab_entries_ok w P items [] s Hne Hopen) as (s'&E&_&F).
      eexists _, s'. split; [exact E|]. split; [apply NoDup_seq|exact F].
    + intros item e Hin Hv Hf.
      exact (SystemTab_entries_fail w P item e items [] s Hin Hv Hf).
  - intros -> ->. split.
    + intros lines Hlines. unfold bind.
      rewrite (new_CronTab_Ok _ _ _ _ lines) by done.
      eexists _, _, _. split; [done|]. apply opened_tab.
    + intros e He. unfold bind. by rewrite (new_CronTab_Raise _ _ _ _ e).
  - by intros -> ->.
Qed.

Lemma system_tab_handles_witness :
  ∃ new s', SystemTab.init debian "/etc/cron.d/" empty_state = Ok new s' ∧
    NoDup new ∧
    Forall2 (λ t item, ∃ cs, tabs s' !! t =
               Some (mkCronTab (PBool false)
                       (Some (os_path_join "/etc/cron.d/" item)) cs))
            new ["job1"].
Proof.
  destruct (system_tab_handles debian "/etc/cron.d/" empty_state) as (H&_&_).
  apply (H eq_refl [".placeholder"; "job1"] eq_refl).
  - repeat constructor; discriminate.
  - intros item Hin Hv.
    apply elem_of_cons in Hin as [->|Hin]; [discriminate|].
    apply list_elem_of_singleton in Hin as ->. by eexists.
Defined.
